(** * The "materials and glass colors" example of plotoptix

    The repository's only program is the notebook
    [examples/1_basic_plot_making/4_materials_and_glass_colors.ipynb]: a
    straight sequence of cells that builds a grid of points with numpy,
    splits it by a random vector into four point sets, and drives one
    [TkOptiX] renderer object through configuration, start, live updates
    and close.

    The embedding below follows the notebook cell by cell.

    - Python floats are IEEE-754 binary64 values: [spec_float] of the
      Standard Library with precision 53 and maximal exponent 1024, whose
      operations round to nearest even as CPython and numpy do.
    - numpy arrays are lists (1-D) and lists of rows (2-D); the vectorised
      comparisons and boolean-mask indexing are written as they are in the
      notebook.
    - The renderer, the GUI and the console are outside the repository.
      Every operation on them is an event handed to a [world], which
      answers with a returned value or a raised exception; the notebook is
      a computation in a small monad that records the events and stops at
      the first exception, as a Python program without [try] does.
    - [map_to_colors] of [plotoptix.utils] is a function of its arguments
      that returns an array or raises (it raises on an empty array). *)

From Stdlib Require Import String ZArith List Bool Lia PeanoNat.
From Stdlib Require Import SpecFloat.
Import ListNotations.
Local Open Scope string_scope.
Local Open Scope list_scope.

(** ** Binary64 arithmetic *)

Module F64.

Definition t := spec_float.

Definition prec : Z := 53.
Definition emax : Z := 1024.

Definition nan : t := S754_nan.
Definition zero : t := S754_zero false.

(** [float(z)] for a Python int. *)
Definition of_Z (z : Z) : t := binary_normalize prec emax z 0 false.

Definition add : t -> t -> t := SFadd prec emax.
Definition mul : t -> t -> t := SFmul prec emax.
Definition div : t -> t -> t := SFdiv prec emax.

(** The comparison of two finite floats of the same sign, as [SFcompare]
    makes it: exponents first, then mantissas. *)
Definition lex (e1 : Z) (m1 : positive) (e2 : Z) (m2 : positive) : comparison :=
  match (e1 ?= e2)%Z with
  | Lt => Lt
  | Gt => Gt
  | Eq => Pos.compare_cont Eq m1 m2
  end.

Definition eqb : t -> t -> bool := SFeqb.
Definition ltb : t -> t -> bool := SFltb.
Definition leb : t -> t -> bool := SFleb.

(** The decimal literal [m * 10^-k] of the source text, for instance
    [lit 97 2] for [0.97]: the binary64 value nearest to it. *)
Definition lit (m : Z) (k : nat) : t := div (of_Z m) (of_Z (10 ^ Z.of_nat k)).

(** [math.ceil]: the least integer not below a finite float; Python raises
    on infinities and NaN. *)
Definition ceil (x : t) : option Z :=
  match x with
  | S754_zero _ => Some 0%Z
  | S754_finite s m e =>
      let v := if s then Z.neg m else Z.pos m in
      Some (if (0 <=? e)%Z then v * 2 ^ e else - ((- v) / 2 ^ (- e)))%Z
  | _ => None
  end.

Definition is_nan (x : t) : bool :=
  match x with S754_nan => true | _ => false end.

Definition eq_dec (x y : t) : {x = y} + {x <> y}.
Proof.
  decide equality; try apply Bool.bool_dec;
    try apply Z.eq_dec; apply Pos.eq_dec.
Defined.

End F64.

(** ** numpy operations used by the notebook *)

Module Np.

Import F64.

Definition vec := list F64.t.
Definition mat := list (list F64.t).

(** One slice [start:stop:step] of [np.mgrid], with Python int bounds and a
    float step. *)
Record slice := { start : Z; stop : Z; step : F64.t }.

(** [int(math.ceil((stop - start) / (step * 1.0)))] *)
Definition axis_size (sl : slice) : option nat :=
  option_map Z.to_nat
    (ceil (div (of_Z (stop sl - start sl)) (mul (step sl) (of_Z 1)))).

(** [indices * step + start] along one axis. *)
Definition axis_values (sl : slice) (n : nat) : vec :=
  map (fun k => add (mul (of_Z (Z.of_nat k)) (step sl)) (of_Z (start sl)))
      (seq 0 n).

(** [np.mgrid[s0, s1, s2]]: three arrays of shape [(n0, n1, n2)]; the k-th
    varies along axis k only.  [None] where Python raises. *)
Definition mgrid3 (s0 s1 s2 : slice) : option (list (list (list vec))) :=
  match axis_size s0, axis_size s1, axis_size s2 with
  | Some n0, Some n1, Some n2 =>
      Some [ map (fun x => repeat (repeat x n2) n1) (axis_values s0 n0);
             repeat (map (fun y => repeat y n2) (axis_values s1 n1)) n0;
             repeat (repeat (axis_values s2 n2) n1) n0 ]
  | _, _, _ => None
  end.

(** [.reshape(3, -1)] of an array of shape [(3, n0, n1, n2)], row-major. *)
Definition reshape_3_flat (a : list (list (list vec))) : mat :=
  map (fun b => concat (concat b)) a.

(** [.T] of a 2-D array given by its rows. *)
Fixpoint transpose (a : mat) : mat :=
  match a with
  | [] => []
  | [r] => map (fun x => [x]) r
  | r :: rest => map (fun p => fst p :: snd p) (combine r (transpose rest))
  end.

(** [a[:, j]] *)
Definition col (j : nat) (a : mat) : vec := map (fun r => nth j r nan) a.

(** Elementwise comparisons of an array with a scalar. *)
Definition eq_scalar (v : vec) (c : F64.t) : list bool := map (fun x => eqb x c) v.
Definition gt_scalar (v : vec) (c : F64.t) : list bool := map (fun x => ltb c x) v.
Definition lt_scalar (v : vec) (c : F64.t) : list bool := map (fun x => ltb x c) v.
Definition ge_scalar (v : vec) (c : F64.t) : list bool := map (fun x => leb c x) v.

(** Elementwise [|] and [&] of boolean arrays. *)
Definition bor (p q : list bool) : list bool :=
  map (fun b => orb (fst b) (snd b)) (combine p q).
Definition band (p q : list bool) : list bool :=
  map (fun b => andb (fst b) (snd b)) (combine p q).

(** Boolean-mask indexing [a[mask]]: the rows whose mask entry is true, in
    order. *)
Definition select {A : Type} (mask : list bool) (a : list A) : list A :=
  map snd (filter fst (combine mask a)).

(** [a + v] with the row vector [v] broadcast over the rows of [a]. *)
Definition add_vec (r v : vec) : vec :=
  map (fun p => add (fst p) (snd p)) (combine r v).
Definition add_row (a : mat) (v : vec) : mat := map (fun r => add_vec r v) a.

(** [c * v] for a scalar [c]. *)
Definition scale (c : F64.t) (v : vec) : vec := map (mul c) v.
Definition scale2 (c : F64.t) (a : mat) : mat := map (scale c) a.

(** [np.random.uniform(0, 1, size)]: [size] samples of the generator; the
    i-th sample of the run is [g i]. *)
Definition uniform01 (g : nat -> F64.t) (size : nat) : vec := map g (seq 0 size).

(** What numpy promises of each sample: it lies in the half-open interval
    [0, 1). *)
Definition unit_sample (x : F64.t) : Prop :=
  leb zero x = true /\ ltb x (of_Z 1) = true.

End Np.

(** ** Cell 2: the data *)

Module Data.

Import F64 Np.

Definition n : Z := 6.
Definition a : Z := 8.

(** [s = a / n]: true division of two ints. *)
Definition s : F64.t := div (of_Z a) (of_Z n).

Definition grid_slice : slice := {| start := 0; stop := a; step := s |}.

(** [np.mgrid[0:a:s, 0:a:s, 0:a:s].reshape(3,-1).T]; [None] where Python
    raises. *)
Definition xyz_opt : option mat :=
  option_map (fun m => transpose (reshape_3_flat m))
             (mgrid3 grid_slice grid_slice grid_slice).

(** The grid construction does not raise (lemma [xyz_opt_defined] below), so
    the second branch is never taken. *)
Definition xyz : mat := match xyz_opt with Some m => m | None => [] end.

(** [np.array([0.5*s, 0.5*s, 0.5*s])], the offset of cell 6. *)
Definition half_step : vec :=
  [mul (lit 5 1) s; mul (lit 5 1) s; mul (lit 5 1) s].

Section WithSamples.

(** The samples drawn by [np.random.uniform] in this run. *)
Variable g : nat -> F64.t.

(** [rnd = np.random.uniform(0, 1, xyz.shape[0])] *)
Definition rnd : vec := uniform01 g (length xyz).

(** [(xyz[:,0] == 0) | (xyz[:,1] == 0) | (xyz[:,2] == 0)] *)
Definition on_boundary : list bool :=
  bor (bor (eq_scalar (col 0 xyz) (of_Z 0)) (eq_scalar (col 1 xyz) (of_Z 0)))
      (eq_scalar (col 2 xyz) (of_Z 0)).

(** [(xyz[:,0] > 0) & (xyz[:,1] > 0) & (xyz[:,2] > 0)] *)
Definition in_interior : list bool :=
  band (band (gt_scalar (col 0 xyz) (of_Z 0)) (gt_scalar (col 1 xyz) (of_Z 0)))
       (gt_scalar (col 2 xyz) (of_Z 0)).

Definition xyz_c_diffuse : mat :=
  select (band on_boundary (lt_scalar rnd (lit 7 1))) xyz.

Definition xyz_c_mirror : mat :=
  select (band on_boundary (ge_scalar rnd (lit 7 1))) xyz.

Definition xyz_p_glass : mat :=
  select (band in_interior (lt_scalar rnd (lit 4 1))) xyz.

Definition xyz_p_plastic : mat :=
  select (band in_interior (gt_scalar rnd (lit 9 1))) xyz.

End WithSamples.

End Data.

(** ** Python values, events and the monad of the notebook *)

#[local] Set Warnings "-register-all".

Inductive pyval :=
| PyNone
| PyBool (b : bool)
| PyInt (z : Z)
| PyFloat (x : F64.t)
| PyStr (s : string)
| PyList (l : list pyval)
| PyDict (d : list (string * pyval))
| PyArray1 (v : Np.vec)
| PyArray2 (m : Np.mat)
| PyObject (id : nat).

Definition kwargs := list (string * pyval).

(** What the notebook asks of the outside: constructing an object of an
    imported class, calling a method of an object, printing. *)
Inductive event :=
| ENew (cls : string) (args : list pyval) (kw : kwargs)
| ECall (self : pyval) (meth : string) (args : list pyval) (kw : kwargs)
| EPrint (v : pyval).

Inductive exn := Exn (cls : string) (msg : string).

Inductive outcome :=
| Returned (v : pyval)
| Raised (e : exn).

Definition entry := (event * outcome)%type.

(** The behaviour of the external libraries: the outcome of an event, given
    everything that happened before it. *)
Definition world := list entry -> event -> outcome.

(** A computation receives the world and the history so far, and gives the
    extended history with either the exception that stopped it or its
    value. *)
Definition M (A : Type) := world -> list entry -> list entry * (exn + A).

Definition ret {A} (x : A) : M A := fun _ h => (h, inr x).

Definition raise {A} (e : exn) : M A := fun _ h => (h, inl e).

Definition bind {A B} (c : M A) (k : A -> M B) : M B :=
  fun w h =>
    match c w h with
    | (h', inr x) => k x w h'
    | (h', inl e) => (h', inl e)
    end.

Definition perform (ev : event) : M pyval :=
  fun w h =>
    match w h ev with
    | Returned v => (h ++ [(ev, Returned v)], inr v)
    | Raised e => (h ++ [(ev, Raised e)], inl e)
    end.

Definition lift {A} (r : exn + A) : M A :=
  match r with inr x => ret x | inl e => raise e end.

Declare Scope py_scope.
Delimit Scope py_scope with py.
Notation "x <- c ;; k" := (bind c (fun x => k))
  (at level 61, c at next level, right associativity) : py_scope.
Notation "c ;; k" := (bind c (fun _ => k))
  (at level 61, right associativity) : py_scope.

(** Constructing [cls(k=v, ...)] and calling [self.meth(x, ..., k=v, ...)]. *)
Definition new (cls : string) (kw : kwargs) : M pyval := perform (ENew cls [] kw).
Definition call (self : pyval) (meth : string) (args : list pyval) (kw : kwargs)
  : M pyval := perform (ECall self meth args kw).
Definition print (v : pyval) : M pyval := perform (EPrint v).

(** ** Dictionaries *)

Fixpoint dict_get (k : string) (d : list (string * pyval)) : option pyval :=
  match d with
  | [] => None
  | (k', v) :: r => if String.eqb k k' then Some v else dict_get k r
  end.

Fixpoint dict_set (k : string) (v : pyval) (d : list (string * pyval))
  : list (string * pyval) :=
  match d with
  | [] => [(k, v)]
  | (k', v') :: r =>
      if String.eqb k k' then (k, v) :: r else (k', v') :: dict_set k v r
  end.

(** [o[k1][k2] = v]: the inner dictionary is updated in place, which the
    outer one shows. *)
Definition setitem2 (o : pyval) (k1 k2 : string) (v : pyval) : exn + pyval :=
  match o with
  | PyDict d =>
      match dict_get k1 d with
      | Some (PyDict d1) => inr (PyDict (dict_set k1 (PyDict (dict_set k2 v d1)) d))
      | Some _ => inl (Exn "TypeError" k2)
      | None => inl (Exn "KeyError" k1)
      end
  | _ => inl (Exn "TypeError" k1)
  end.

(** ** The notebook *)

Module Notebook.

Import F64 Np Data.
Local Open Scope py_scope.

(** [m_clear_glass] of [plotoptix.materials], as the notebook records it in
    the output of cell 11. *)
Definition m_clear_glass : pyval :=
  PyDict
    [ ("RadianceProgram", PyStr "materials7.ptx::__closesthit__radiance__glass");
      ("OcclusionProgram", PyStr "materials7.ptx::__closesthit__occlusion");
      ("VarUInt", PyDict [ ("flags", PyInt 12) ]);
      ("VarFloat", PyDict [ ("radiation_length", PyFloat (lit 0 1));
                            ("vol_scattering", PyFloat (lit 10 1));
                            ("light_emission", PyFloat (lit 0 1)) ]);
      ("VarFloat3",
       PyDict [ ("refraction_index",
                 PyList [PyFloat (lit 14 1); PyFloat (lit 14 1); PyFloat (lit 14 1)]);
                ("surface_albedo",
                 PyList [PyFloat (lit 10 1); PyFloat (lit 10 1); PyFloat (lit 10 1)]) ]) ].

Section Script.

(** The other two imported materials and [plotoptix.utils.map_to_colors]
    are not part of the repository.  [map_to_colors] returns the colours of
    its values, one row each, or raises. *)
Variables m_plastic m_mirror : pyval.
Variable map_to_colors : vec -> string -> exn + mat.

(** The samples of [np.random.uniform] in this run. *)
Variable g : nat -> F64.t.

(** Cells 3 to 17, on the object bound to [optix] in cell 3. *)
Definition body (optix : pyval) : M pyval :=
  (* cell 3 *)
  call optix "set_param" []
       [ ("min_accumulation_step", PyInt 4);
         ("max_accumulation_frames", PyInt 500);
         ("light_shading", PyStr "Hard") ] ;;
  (* cell 4 *)
  call optix "set_uint" [PyStr "path_seg_range"; PyInt 15; PyInt 30] [] ;;
  (* cell 5 *)
  call optix "setup_material" [PyStr "glass"; m_clear_glass] [] ;;
  call optix "setup_material" [PyStr "plastic"; m_plastic] [] ;;
  call optix "setup_material" [PyStr "mirror"; m_mirror] [] ;;
  (* cell 6 *)
  call optix "set_data" [PyStr "particles_g"]
       [ ("pos", PyArray2 (add_row (xyz_p_glass g) half_step));
         ("r", PyFloat (mul (lit 4 1) s));
         ("geom", PyStr "ParticleSet");
         ("mat", PyStr "glass");
         ("c", PyInt 10) ] ;;
  call optix "set_data" [PyStr "particles_p"]
       [ ("pos", PyArray2 (add_row (xyz_p_plastic g) half_step));
         ("r", PyFloat (mul (lit 4 1) s));
         ("geom", PyStr "ParticleSet");
         ("mat", PyStr "plastic");
         ("c", PyFloat (lit 95 2)) ] ;;
  call optix "set_data" [PyStr "cubes_d"]
       [ ("pos", PyArray2 (xyz_c_diffuse g));
         ("u", PyList [PyFloat (mul (lit 9 1) s); PyInt 0; PyInt 0]);
         ("v", PyList [PyInt 0; PyFloat (mul (lit 9 1) s); PyInt 0]);
         ("w", PyList [PyInt 0; PyInt 0; PyFloat (mul (lit 9 1) s)]);
         ("geom", PyStr "Parallelepipeds");
         ("mat", PyStr "diffuse");
         ("c", PyFloat (lit 95 2)) ] ;;
  call optix "set_data" [PyStr "cubes_m"]
       [ ("pos", PyArray2 (xyz_c_mirror g));
         ("u", PyList [PyFloat (mul (lit 9 1) s); PyInt 0; PyInt 0]);
         ("v", PyList [PyInt 0; PyFloat (mul (lit 9 1) s); PyInt 0]);
         ("w", PyList [PyInt 0; PyInt 0; PyFloat (mul (lit 9 1) s)]);
         ("geom", PyStr "Parallelepipeds");
         ("mat", PyStr "mirror") ] ;;
  (* cell 7 *)
  call optix "setup_camera" [PyStr "cam1"]
       [ ("eye", PyList [PyInt 20; PyInt 10; PyInt 10]);
         ("target", PyList [PyFloat (mul (lit 5 1) (of_Z a));
                            PyFloat (mul (lit 4 1) (of_Z a));
                            PyFloat (mul (lit 5 1) (of_Z a))]);
         ("fov", PyInt 35) ] ;;
  call optix "set_background" [PyInt 0] [] ;;
  call optix "set_ambient" [PyInt 0] [] ;;
  (* cell 8 *)
  call optix "set_float" [PyStr "tonemap_exposure"; PyFloat (lit 5 1)] [] ;;
  call optix "set_float" [PyStr "tonemap_gamma"; PyFloat (lit 22 1)] [] ;;
  call optix "add_postproc" [PyStr "Gamma"] [] ;;
  (* cell 9 *)
  call optix "setup_light" [PyStr "light1"]
       [ ("pos", PyList [PyInt 5; PyInt 20; PyInt 5]);
         ("color", PyArray1 (scale (of_Z 10) [lit 10 1; lit 97 2; lit 7 1]));
         ("radius", PyInt 4) ] ;;
  call optix "setup_light" [PyStr "light2"]
       [ ("pos", PyList [PyInt 7; PyInt 7; PyInt 20]);
         ("color", PyArray1 (scale (of_Z 15) [lit 7 1; lit 85 2; lit 10 1]));
         ("radius", PyInt 3) ] ;;
  call optix "setup_light" [PyStr "light3"]
       [ ("pos", PyList [PyInt 15; PyInt 2; PyInt 2]);
         ("color", PyInt 15);
         ("radius", PyInt 1) ] ;;
  (* cell 10 *)
  call optix "start" [] [] ;;
  (* cell 11 *)
  print m_clear_glass ;;
  (* cell 12 *)
  glass <- lift (setitem2 m_clear_glass "VarFloat3" "refraction_index"
                   (PyList [PyFloat (lit 14 1); PyFloat (lit 144 2); PyFloat (lit 15 1)])) ;;
  call optix "update_material" [PyStr "glass"; glass] [("refresh", PyBool true)] ;;
  (* cell 13 *)
  call optix "update_data" [PyStr "particles_g"]
       [ ("c", PyArray1 (scale (lit 5 1) (col 1 (xyz_p_glass g)))) ] ;;
  (* cell 14 *)
  colors <- lift (map_to_colors (col 1 (xyz_p_glass g)) "jet") ;;
  call optix "update_data" [PyStr "particles_g"]
       [ ("c", PyArray2 (scale2 (of_Z 10) colors)) ] ;;
  (* cell 15 *)
  call optix "update_light" [PyStr "light1"]
       [ ("color", PyArray1 [lit 9 1; lit 7 1; of_Z 0]);
         ("radius", PyInt 7) ] ;;
  call optix "update_light" [PyStr "light2"]
       [ ("pos", PyList [PyInt 15; PyInt 15; PyInt 15]);
         ("color", PyArray1 (scale (of_Z 10) [lit 2 1; lit 5 1; lit 10 1]));
         ("radius", PyInt 3) ] ;;
  (* cell 16 *)
  call optix "set_uint" [PyStr "path_seg_range"; PyInt 2; PyInt 4]
       [("refresh", PyBool true)] ;;
  (* cell 17 *)
  call optix "close" [] [].

(** The whole notebook, run from the top: cell 3 constructs the renderer
    object and binds it to [optix]. *)
Definition script : M pyval :=
  optix <- new "TkOptiX" [("start_now", PyBool false)] ;;
  body optix.

(** One run of the notebook in a world: the record of what happened, and
    how it ended. *)
Definition run (w : world) : list entry * (exn + pyval) := script w [].

Definition trace (w : world) : list entry := fst (run w).
Definition result (w : world) : exn + pyval := snd (run w).

Definition completes (w : world) : Prop := exists v, result w = inr v.

End Script.

End Notebook.

(** ** Straight-line computations and their runs *)

Module Run.

(** A computation is straight-line over a list of events when it performs
    them one after the other and looks at none of the returned values; it
    ends with the value of the last event or, after the events, with an
    exception of its own. *)
Inductive straight : M pyval -> list event -> option exn -> Prop :=
| straight_last ev : straight (perform ev) [ev] None
| straight_stop e : straight (raise e) [] (Some e)
| straight_seq ev m evs fin :
    straight m evs fin ->
    straight (bind (perform ev) (fun _ => m)) (ev :: evs) fin.

(** The possible records of a straight-line computation: it goes through
    its events while the world returns, and stops at the first event on
    which the world raises, with that exception as its result; when all its
    events have returned it ends with the value of the last one, or with
    its own exception. *)
Inductive runs_as : list event -> option exn -> list entry -> exn + pyval -> Prop :=
| runs_last ev v : runs_as [ev] None [(ev, Returned v)] (inr v)
| runs_stop e : runs_as [] (Some e) [] (inl e)
| runs_raise ev evs fin e : runs_as (ev :: evs) fin [(ev, Raised e)] (inl e)
| runs_step ev evs fin v tr r :
    runs_as evs fin tr r -> runs_as (ev :: evs) fin ((ev, Returned v) :: tr) r.

(** Every recorded outcome is the answer of the world at that point. *)
Fixpoint answered (w : world) (h tr : list entry) : Prop :=
  match tr with
  | [] => True
  | (ev, o) :: tr' => w h ev = o /\ answered w (h ++ [(ev, o)]) tr'
  end.

Definition returned (en : entry) : Prop :=
  match snd en with Returned _ => True | Raised _ => False end.

Definition events (tr : list entry) : list event := map fst tr.

(** The world that returns [None] from every call and the object [obj] from
    every constructor. *)
Definition quiet (obj : pyval) : world :=
  fun _ ev => match ev with ENew _ _ _ => Returned obj | _ => Returned PyNone end.

End Run.

(** ** What the properties speak about *)

Module Obs.

Import F64 Np Data Run Notebook.

(** *** The events of the notebook *)

Section Events.

Variables m_plastic m_mirror : pyval.
Variable map_to_colors : vec -> string -> exn + mat.
Variable g : nat -> F64.t.

(** The exception, if any, that [map_to_colors] raises in cell 14. *)
Definition colour_failure : option exn :=
  match map_to_colors (col 1 (xyz_p_glass g)) "jet" with
  | inl e => Some e
  | inr _ => None
  end.

(** The events of cells 3 to 17 and of the whole notebook, read off a run
    in which nothing raises and the constructor returns [obj]. *)
Definition body_events (obj : pyval) : list event :=
  events (fst (body m_plastic m_mirror map_to_colors g obj (quiet obj) [])).

Definition script_events (obj : pyval) : list event :=
  events (trace m_plastic m_mirror map_to_colors g (quiet obj)).

End Events.

(** *** Observations on one event *)

Definition construction : event := ENew "TkOptiX" [] [("start_now", PyBool false)].

Definition is_call (m : string) (ev : event) : bool :=
  match ev with ECall _ m' _ _ => String.eqb m m' | _ => false end.

Definition is_new (ev : event) : bool :=
  match ev with ENew _ _ _ => true | _ => false end.

(** A call of one of the methods [ms]. *)
Definition calls_one_of (ms : list string) (ev : event) : bool :=
  existsb (fun m => is_call m ev) ms.

(** Anything but a call of a method outside [ms]. *)
Definition within (ms : list string) (ev : event) : bool :=
  match ev with ECall _ _ _ _ => calls_one_of ms ev | _ => true end.

(** The operation with its arguments, without the object it is applied to. *)
Definition signature (ev : event) : string * list pyval * kwargs :=
  match ev with
  | ENew cls args kw => (cls, args, kw)
  | ECall _ m args kw => (m, args, kw)
  | EPrint v => ("print", [v], [])
  end.

Definition op_name (ev : event) : string := fst (fst (signature ev)).

Definition args_of (ev : event) : list pyval := snd (fst (signature ev)).

Definition keywords (ev : event) : list string := map fst (snd (signature ev)).

(** The calls of method [m] among the events of a record. *)
Definition calls_of (m : string) (tr : list entry) : list event :=
  filter (is_call m) (events tr).

(** The object a method call is applied to is the one the first entry of the
    record returned. *)
Definition on_object_of (tr : list entry) (ev : event) : Prop :=
  match ev with
  | ECall self _ _ _ =>
      match tr with
      | (ENew _ _ _, Returned obj) :: _ => self = obj
      | _ => False
      end
  | _ => True
  end.

(** *** Method names *)

(** The calls listed in the system overview of the specification. *)
Definition overview_methods : list string :=
  [ "set_param"; "setup_material"; "set_data"; "setup_camera"; "setup_light";
    "add_postproc"; "start"; "update_material"; "update_data"; "update_light";
    "close" ].

(** The further setters the notebook calls. *)
Definition setter_methods : list string :=
  [ "set_uint"; "set_float"; "set_background"; "set_ambient" ].

Definition update_methods : list string :=
  [ "update_material"; "update_data"; "update_light" ].

(** The methods of the initial scene configuration, with and without
    [set_uint]. *)
Definition scene_methods : list string :=
  [ "set_param"; "setup_material"; "set_data"; "setup_camera"; "set_background";
    "set_ambient"; "set_float"; "add_postproc"; "setup_light" ].

Definition initial_methods : list string := "set_uint" :: scene_methods.

(** The operations of the notebook in the order of its cells: the
    construction, the method calls and the print of cell 11. *)
Definition notebook_operations : list string :=
  [ "TkOptiX"; "set_param"; "set_uint";
    "setup_material"; "setup_material"; "setup_material";
    "set_data"; "set_data"; "set_data"; "set_data";
    "setup_camera"; "set_background"; "set_ambient";
    "set_float"; "set_float"; "add_postproc";
    "setup_light"; "setup_light"; "setup_light";
    "start"; "print"; "update_material"; "update_data";
    "update_data"; "update_light"; "update_light"; "set_uint"; "close" ].

(** The operations before the [map_to_colors] of cell 14. *)
Definition operations_before_colours : list string := firstn 23 notebook_operations.

(** *** Order of events *)

(** Every event satisfying [P] comes strictly before every event satisfying
    [Q]. *)
Fixpoint all_before (P Q : event -> bool) (evs : list event) : bool :=
  match evs with
  | [] => true
  | ev :: rest =>
      (negb (Q ev) || forallb (fun x => negb (P x)) (ev :: rest))
      && all_before P Q rest
  end.

Definition precede (P Q : event -> bool) (evs : list event) : Prop :=
  forall i j a b,
    nth_error evs i = Some a -> nth_error evs j = Some b ->
    P a = true -> Q b = true -> i < j.

(** The lifecycle of the renderer: one [start], the calls of the methods
    [initial] before it, the updates after it, [close] at the end. *)
Definition lifecycle (initial : list string) (evs : list event) : Prop :=
  length (filter (is_call "start") evs) = 1
  /\ precede (calls_one_of initial) (is_call "start") evs
  /\ precede (is_call "start") (calls_one_of update_methods) evs
  /\ exists obj, last evs construction = ECall obj "close" [] [].

(** [l1] is an initial part of [l2]; two lists of which one is an initial
    part of the other. *)
Definition prefix {A} (l1 l2 : list A) : Prop := exists r, l2 = l1 ++ r.

Definition agree {A} (l1 l2 : list A) : Prop := prefix l1 l2 \/ prefix l2 l1.

(** *** Shapes of arguments *)

(** [set_uint("path_seg_range", lo, hi)] with [0 <= lo <= hi]: holds of
    every event that is not a [set_uint] call, and of the [set_uint] calls
    of that shape. *)
Definition set_uint_shape (ev : event) : bool :=
  match ev with
  | ECall _ m args _ =>
      if String.eqb m "set_uint" then
        match args with
        | [PyStr name; PyInt lo; PyInt hi] =>
            String.eqb name "path_seg_range" && (0 <=? lo)%Z && (lo <=? hi)%Z
        | _ => false
        end
      else true
  | _ => true
  end.

Definition uint_range (ev : event) : option (Z * Z) :=
  match ev with
  | ECall _ _ [_; PyInt lo; PyInt hi] _ => Some (lo, hi)
  | _ => None
  end.

Definition strings_eqb (l1 l2 : list string) : bool :=
  if list_eq_dec string_dec l1 l2 then true else false.

(** [setup_light(name, pos=..., color=..., radius=...)]: one positional
    argument, a string, and the three keywords. *)
Definition setup_light_shape (ev : event) : bool :=
  match ev with
  | ECall _ m args kw =>
      if String.eqb m "setup_light" then
        match args with
        | [PyStr _] => strings_eqb (map fst kw) ["pos"; "color"; "radius"]
        | _ => false
        end
      else true
  | _ => true
  end.

(** The names of the lights of the notebook, as first arguments. *)
Definition light_names : list (option pyval) :=
  [Some (PyStr "light1"); Some (PyStr "light2"); Some (PyStr "light3")].

(** A method call applied to [obj], or no method call. *)
Definition applied_to (obj : pyval) (ev : event) : Prop :=
  match ev with ECall self _ _ _ => self = obj | _ => True end.

Definition first_arg (ev : event) : option pyval := nth_error (args_of ev) 0.

(** *** Points *)

Definition coord (j : nat) (r : vec) : F64.t := nth j r nan.

(** At least one coordinate equal to 0. *)
Definition boundary_row (r : vec) : bool :=
  eqb (coord 0 r) (of_Z 0) || eqb (coord 1 r) (of_Z 0) || eqb (coord 2 r) (of_Z 0).

(** All coordinates strictly positive. *)
Definition interior_row (r : vec) : bool :=
  ltb (of_Z 0) (coord 0 r) && ltb (of_Z 0) (coord 1 r) && ltb (of_Z 0) (coord 2 r).

Definition vec_eqb (r1 r2 : vec) : bool :=
  if list_eq_dec F64.eq_dec r1 r2 then true else false.

Fixpoint distinct (l : mat) : bool :=
  match l with
  | [] => true
  | r :: rest => negb (existsb (vec_eqb r) rest) && distinct rest
  end.

(** The rows of the [pos] argument of a [set_data] call; of its particle
    geometry only, for [particle_rows]. *)
Definition pos_rows (ev : event) : mat :=
  match ev with
  | ECall _ m _ kw =>
      if String.eqb "set_data" m then
        match dict_get "pos" kw with Some (PyArray2 rows) => rows | _ => [] end
      else []
  | _ => []
  end.

Definition has_geom (geom : string) (ev : event) : bool :=
  match ev with
  | ECall _ _ _ kw =>
      match dict_get "geom" kw with Some (PyStr s) => String.eqb s geom | _ => false end
  | _ => false
  end.

Definition particle_rows (ev : event) : mat :=
  if has_geom "ParticleSet" ev then pos_rows ev else [].

(** The point with the three coordinates of [r], each moved by [0.5*s]. *)
Definition moved_half_step (r : vec) : vec :=
  [ add (coord 0 r) (mul (lit 5 1) s);
    add (coord 1 r) (mul (lit 5 1) s);
    add (coord 2 r) (mul (lit 5 1) s) ].

(** A particle position: a grid point with all coordinates positive, moved
    by [0.5*s] along each of the three axes. *)
Definition shifted_interior (p : vec) : Prop :=
  exists r, In r xyz /\ interior_row r = true /\ p = moved_half_step r.

(** The values the claim on the grid allows for a coordinate:
    0, s, 2s, 3s, 4s, 5s. *)
Definition grid_values : vec :=
  [ of_Z 0; s; mul (of_Z 2) s; mul (of_Z 3) s; mul (of_Z 4) s; mul (of_Z 5) s ].

Definition on_grid (r : vec) : bool :=
  Nat.eqb (length r) 3
  && forallb (fun x => existsb (fun v => if F64.eq_dec x v then true else false) grid_values) r.

(** A coordinate at least [1.5*s] and strictly positive. *)
Definition clear_of_walls (x : F64.t) : bool :=
  leb (mul (lit 15 1) s) x && ltb (of_Z 0) x.

(** *** Concrete runs *)

(** Two stand-ins for [map_to_colors]: one grey level per value; and the
    same, raising on an empty array as the real function does. *)
Definition grey_colors (v : vec) (_ : string) : exn + mat :=
  inr (map (fun x => [x; x; x]) v).

Definition span_colors (v : vec) (cm : string) : exn + mat :=
  match v with
  | [] => inl (Exn "ValueError" "zero-size array")
  | _ => grey_colors v cm
  end.

(** Samples that are all 0.5: no glass and no plastic particle. *)
Definition flat_samples (_ : nat) : F64.t := lit 5 1.

(** Samples among 0.00, 0.05, ..., 0.95: the i-th is [((7 i) mod 20) * 0.05]. *)
Definition cycle_samples (i : nat) : F64.t :=
  lit (5 * Z.of_nat ((7 * i) mod 20)) 2.

(** A world in which [start] raises and everything else is quiet. *)
Definition no_display (obj : pyval) : world :=
  fun h ev =>
    if is_call "start" ev then Raised (Exn "TclError" "no display")
    else quiet obj h ev.

End Obs.

(** ** The scene the calls describe *)

Module Scene.

Import F64 Np Data Run Notebook Obs.

Definition sub : F64.t -> F64.t -> F64.t := SFsub F64.prec F64.emax.

(** *** Reading arguments *)

(** A Python number as a float. *)
Definition as_float (v : pyval) : option F64.t :=
  match v with
  | PyInt z => Some (of_Z z)
  | PyFloat x => Some x
  | _ => None
  end.

Fixpoint as_floats (l : list pyval) : option vec :=
  match l with
  | [] => Some []
  | v :: rest =>
      match as_float v, as_floats rest with
      | Some x, Some xs => Some (x :: xs)
      | _, _ => None
      end
  end.

Definition kw_of (ev : event) : kwargs :=
  match ev with ECall _ _ _ kw => kw | _ => [] end.

Definition float_kw (k : string) (ev : event) : option F64.t :=
  match dict_get k (kw_of ev) with Some v => as_float v | None => None end.

Definition vec_kw (k : string) (ev : event) : option vec :=
  match dict_get k (kw_of ev) with Some (PyList l) => as_floats l | _ => None end.

Definition str_kw (k : string) (ev : event) : option string :=
  match dict_get k (kw_of ev) with Some (PyStr s) => Some s | _ => None end.

(** The first positional argument, when it is a string: the name of the
    material, geometry, camera or light the call is about. *)
Definition name_arg (ev : event) : option string :=
  match ev with
  | ECall _ _ (PyStr nm :: _) _ => Some nm
  | _ => None
  end.

(** The number of entries (1-D) or rows (2-D) of the [c] argument. *)
Definition c_len (ev : event) : option nat :=
  match dict_get "c" (kw_of ev) with
  | Some (PyArray1 v) => Some (length v)
  | Some (PyArray2 m) => Some (length m)
  | _ => None
  end.

(** *** Primitives as boxes *)

(** An axis-aligned box, by its lower and upper corner. *)
Definition box := (vec * vec)%type.

Definition nonneg (v : vec) : bool := forallb (leb (of_Z 0)) v.

(** The parallelepiped at [p] with edges [u], [v], [w] of non-negative
    components spans from [p] to [p + u + v + w]. *)
Definition cube_box (u v w p : vec) : box :=
  (p, add_vec (add_vec (add_vec p u) v) w).

(** The particle of radius [r] at [p] spans from [p - r] to [p + r]. *)
Definition ball_box (r : F64.t) (p : vec) : box :=
  (map (fun x => sub x r) p, map (fun x => add x r) p).

(** The boxes of the primitives of one [set_data] call. *)
Definition boxes (ev : event) : list box :=
  if has_geom "ParticleSet" ev then
    match float_kw "r" ev with
    | Some r => map (ball_box r) (pos_rows ev)
    | None => []
    end
  else if has_geom "Parallelepipeds" ev then
    match vec_kw "u" ev, vec_kw "v" ev, vec_kw "w" ev with
    | Some u, Some v, Some w =>
        if nonneg u && nonneg v && nonneg w
        then map (cube_box u v w) (pos_rows ev)
        else []
    | _, _, _ => []
    end
  else [].

(** Two boxes with a gap between them along one of the three axes. *)
Definition apart (b1 b2 : box) : bool :=
  existsb (fun j => ltb (coord j (snd b1)) (coord j (fst b2))
                    || ltb (coord j (snd b2)) (coord j (fst b1)))
          [0; 1; 2].

(** A box within the cube from 0 to [a] of the grid. *)
Definition in_scene (b : box) : bool :=
  Nat.eqb (length (fst b)) 3 && Nat.eqb (length (snd b)) 3
  && forallb (leb (of_Z 0)) (fst b)
  && forallb (fun x => leb x (of_Z a)) (snd b).

(** The values the notebook passes for the particle radius and the cube
    edges, and the box of the primitive the notebook places for a grid
    point: a particle at the shifted point if the point is interior, a cube
    at the point otherwise. *)
Definition radius : F64.t := mul (lit 4 1) s.
Definition edge_u : vec := [mul (lit 9 1) s; of_Z 0; of_Z 0].
Definition edge_v : vec := [of_Z 0; mul (lit 9 1) s; of_Z 0].
Definition edge_w : vec := [of_Z 0; of_Z 0; mul (lit 9 1) s].

Definition box_of_point (r : vec) : box :=
  if interior_row r then ball_box radius (add_vec r half_step)
  else cube_box edge_u edge_v edge_w r.

(** The grid points for which the notebook passes a primitive, in the
    order of the four [set_data] calls. *)
Definition placed (g : nat -> F64.t) : mat :=
  xyz_p_glass g ++ xyz_p_plastic g ++ xyz_c_diffuse g ++ xyz_c_mirror g.

(** Points with their boxes, of which any two at different points are
    apart. *)
Definition all_apart (bl : list (vec * box)) : bool :=
  forallb (fun p1 =>
             forallb (fun p2 => vec_eqb (fst p1) (fst p2) || apart (snd p1) (snd p2)) bl)
          bl.

(** *** Names *)

Definition named := (string * string)%type.

Definition named_eqb (x y : named) : bool :=
  String.eqb (fst x) (fst y) && String.eqb (snd x) (snd y).

(** What a call sets up: a material, a geometry or a light, by name. *)
Definition defines (ev : event) : list named :=
  match name_arg ev with
  | Some nm =>
      if is_call "setup_material" ev then [("material", nm)]
      else if is_call "set_data" ev then [("data", nm)]
      else if is_call "setup_light" ev then [("light", nm)]
      else []
  | None => []
  end.

(** What a call relies on: the thing an update changes, and the material
    of a geometry unless it is "diffuse", the one material that is there by
    default. *)
Definition refers (ev : event) : list named :=
  match name_arg ev with
  | Some nm =>
      if is_call "update_material" ev then [("material", nm)]
      else if is_call "update_data" ev then [("data", nm)]
      else if is_call "update_light" ev then [("light", nm)]
      else if is_call "set_data" ev then
        match str_kw "mat" ev with
        | Some m => if String.eqb m "diffuse" then [] else [("material", m)]
        | None => []
        end
      else []
  | None => []
  end.

(** Every reference is to something in [env] or set up by an earlier
    event. *)
Fixpoint scoped (env : list named) (evs : list event) : bool :=
  match evs with
  | [] => true
  | ev :: rest =>
      forallb (fun x => existsb (named_eqb x) env) (refers ev)
      && scoped (defines ev ++ env) rest
  end.

Definition defined_before (evs : list event) : Prop :=
  forall j ev x,
    nth_error evs j = Some ev -> In x (refers ev) ->
    exists i d, i < j /\ nth_error evs i = Some d /\ In x (defines d).

(** *** Reading dictionaries *)

Definition getitem (o : pyval) (k : string) : option pyval :=
  match o with PyDict d => dict_get k d | _ => None end.

(** [o[k1][k2]] *)
Definition getitem2 (o : pyval) (k1 k2 : string) : option pyval :=
  match getitem o k1 with Some o1 => getitem o1 k2 | None => None end.

(** The refraction index of the material a call passes as its second
    argument. *)
Definition refraction_arg (ev : event) : option pyval :=
  match nth_error (args_of ev) 1 with
  | Some m => getitem2 m "VarFloat3" "refraction_index"
  | None => None
  end.

End Scene.

(** ** Order of binary64 values *)

Module F64Facts.
Import F64.

Lemma lex_antisym e1 m1 e2 m2 : lex e2 m2 e1 m1 = CompOpp (lex e1 m1 e2 m2).
Proof.
  unfold lex. rewrite (Z.compare_antisym e1 e2).
  destruct (e1 ?= e2)%Z; simpl; auto.
  change (Pos.compare_cont Eq m2 m1) with (Pos.compare m2 m1).
  change (Pos.compare_cont Eq m1 m2) with (Pos.compare m1 m2).
  apply Pos.compare_antisym.
Qed.

Lemma lex_lt e1 m1 e2 m2 :
  lex e1 m1 e2 m2 = Lt <-> (e1 < e2 \/ (e1 = e2 /\ Pos.lt m1 m2))%Z.
Proof.
  unfold lex. destruct (Z.compare_spec e1 e2) as [E | E | E].
  - change (Pos.compare_cont Eq m1 m2) with (Pos.compare m1 m2).
    rewrite Pos.compare_lt_iff. split; [auto | intros [H | [_ H]]; [lia | auto]].
  - split; auto.
  - split; [discriminate | intros [H | [H _]]; lia].
Qed.

Lemma lex_trans e1 m1 e2 m2 e3 m3 :
  lex e1 m1 e2 m2 = Lt -> lex e2 m2 e3 m3 = Lt -> lex e1 m1 e3 m3 = Lt.
Proof.
  rewrite !lex_lt. intros [H | [H H']] [K | [K K']]; try (left; lia).
  right. split; [lia | eapply Pos.lt_trans; eauto].
Qed.

Lemma lex_gt_trans e1 m1 e2 m2 e3 m3 :
  lex e1 m1 e2 m2 = Gt -> lex e2 m2 e3 m3 = Gt -> lex e1 m1 e3 m3 = Gt.
Proof.
  intros H K.
  rewrite (lex_antisym e3 m3 e1 m1).
  rewrite (lex_antisym e2 m2 e1 m1) in H. rewrite (lex_antisym e3 m3 e2 m2) in K.
  rewrite (lex_trans e3 m3 e2 m2 e1 m1); auto.
  - destruct (lex e3 m3 e2 m2); simpl in K; congruence.
  - destruct (lex e2 m2 e1 m1); simpl in H; congruence.
Qed.

Lemma compare_finite s1 m1 e1 s2 m2 e2 :
  SFcompare (S754_finite s1 m1 e1) (S754_finite s2 m2 e2) =
  Some match s1, s2 with
       | true, false => Lt
       | false, true => Gt
       | false, false => lex e1 m1 e2 m2
       | true, true => CompOpp (lex e1 m1 e2 m2)
       end.
Proof.
  destruct s1, s2; simpl; auto; unfold lex; now destruct (e1 ?= e2)%Z.
Qed.

Lemma compare_antisym x y :
  SFcompare y x = option_map CompOpp (SFcompare x y).
Proof.
  destruct x as [sx | sx | | sx mx ex], y as [sy | sy | | sy my ey];
    try (simpl; try destruct sx; try destruct sy; reflexivity).
  rewrite !compare_finite. simpl. f_equal.
  destruct sx, sy; simpl; auto.
  - f_equal. apply lex_antisym.
  - apply lex_antisym.
Qed.

Lemma leb_not_ltb c x : leb c x = true -> ltb x c = false.
Proof.
  unfold leb, ltb, SFleb, SFltb. rewrite (compare_antisym c x).
  destruct (SFcompare c x) as [[ | | ] | ]; simpl; congruence.
Qed.

Lemma ltb_not_leb c x : ltb x c = true -> leb c x = false.
Proof.
  intros H. destruct (leb c x) eqn:E; auto.
  apply leb_not_ltb in E. congruence.
Qed.

Lemma not_ltb_leb c x :
  is_nan c = false -> is_nan x = false -> ltb x c = false -> leb c x = true.
Proof.
  unfold leb, ltb, SFleb, SFltb. rewrite (compare_antisym c x).
  intros Hc Hx.
  destruct (SFcompare c x) as [[ | | ] | ] eqn:E; simpl; try congruence.
  destruct c, x; simpl in *; try discriminate;
    repeat match goal with b : bool |- _ => destruct b end; discriminate.
Qed.

Lemma leb_not_nan c x : leb c x = true -> is_nan x = false.
Proof.
  unfold leb, SFleb. destruct c, x; simpl; auto; discriminate.
Qed.

Lemma ltb_trans x y z : ltb x y = true -> ltb y z = true -> ltb x z = true.
Proof.
  unfold ltb, SFltb.
  destruct x as [sx | sx | | sx mx ex], y as [sy | sy | | sy my ey],
           z as [sz | sz | | sz mz ez];
    try (simpl; repeat match goal with b : bool |- _ => destruct b end;
         simpl; congruence).
  rewrite !compare_finite.
  destruct sx, sy, sz; simpl; try congruence.
  - intros H K.
    destruct (lex ex mx ey my) eqn:E1; simpl in H; try discriminate.
    destruct (lex ey my ez mz) eqn:E2; simpl in K; try discriminate.
    now rewrite (lex_gt_trans _ _ _ _ _ _ E1 E2).
  - intros H K.
    destruct (lex ex mx ey my) eqn:E1; try discriminate.
    destruct (lex ey my ez mz) eqn:E2; try discriminate.
    now rewrite (lex_trans _ _ _ _ _ _ E1 E2).
Qed.

End F64Facts.

(** ** Masks and selections *)

Module NpFacts.
Import F64 Np Obs.

Lemma nth_error_band p q i :
  nth_error (band p q) i =
  match nth_error p i, nth_error q i with
  | Some a, Some b => Some (a && b)
  | _, _ => None
  end.
Proof.
  revert q i. induction p as [ | a p IH]; intros [ | b q] [ | i]; simpl; auto;
    try apply IH;
    match goal with |- context [nth_error ?l ?k] => now destruct (nth_error l k) end.
Qed.

Lemma nth_error_bor p q i :
  nth_error (bor p q) i =
  match nth_error p i, nth_error q i with
  | Some a, Some b => Some (a || b)
  | _, _ => None
  end.
Proof.
  revert q i. induction p as [ | a p IH]; intros [ | b q] [ | i]; simpl; auto;
    try apply IH;
    match goal with |- context [nth_error ?l ?k] => now destruct (nth_error l k) end.
Qed.

Lemma nth_error_col j (a : mat) i :
  nth_error (col j a) i = option_map (coord j) (nth_error a i).
Proof. apply nth_error_map. Qed.

Lemma nth_error_uniform01 g size i :
  i < size -> nth_error (uniform01 g size) i = Some (g i).
Proof.
  intros H. unfold uniform01. rewrite nth_error_map.
  rewrite (nth_error_nth' (seq 0 size) 0) by now rewrite length_seq.
  now rewrite seq_nth.
Qed.

Lemma select_In {A} (mask : list bool) (rows : list A) r :
  In r (select mask rows) <->
  exists i, nth_error mask i = Some true /\ nth_error rows i = Some r.
Proof.
  unfold select. revert rows.
  induction mask as [ | b mask IH]; intros [ | x rows]; simpl.
  - split; [tauto | intros ([ | i] & H & _); discriminate].
  - split; [tauto | intros ([ | i] & H & _); discriminate].
  - split; [tauto | intros ([ | i] & _ & H); discriminate].
  - destruct b; simpl; rewrite IH.
    + split.
      * intros [-> | (i & H1 & H2)]; [now exists 0 | now exists (S i)].
      * intros ([ | i] & H1 & H2); simpl in *; [left; congruence | right; eauto].
    + split.
      * intros (i & H1 & H2). now exists (S i).
      * intros ([ | i] & H1 & H2); simpl in *; [discriminate | eauto].
Qed.

Lemma In_add_row a v p :
  In p (add_row a v) <-> exists r, In r a /\ p = add_vec r v.
Proof.
  unfold add_row. rewrite in_map_iff. split; intros (r & H1 & H2); eauto.
Qed.

Lemma distinct_NoDup l : distinct l = true -> NoDup l.
Proof.
  induction l as [ | r l IH]; simpl; intros H; constructor.
  - apply andb_prop in H as [H _]. intros Hin.
    apply negb_true_iff in H. rewrite <- not_true_iff_false in H. apply H.
    apply existsb_exists. exists r. split; auto.
    unfold vec_eqb. now destruct (list_eq_dec F64.eq_dec r r).
  - apply IH. now apply andb_prop in H as [_ H].
Qed.

End NpFacts.

(** ** The grid and the four point sets *)

Module DataFacts.
Import F64 Np Data Obs NpFacts F64Facts.

Lemma xyz_opt_defined : xyz_opt = Some xyz.
Proof. vm_compute. reflexivity. Qed.

Lemma xyz_length : length xyz = 216.
Proof. vm_compute. reflexivity. Qed.

Lemma xyz_NoDup : NoDup xyz.
Proof. apply distinct_NoDup. vm_compute. reflexivity. Qed.

Section Masks.
Variable g : nat -> F64.t.

Lemma on_boundary_at i r :
  nth_error xyz i = Some r -> nth_error on_boundary i = Some (boundary_row r).
Proof.
  intros H. unfold on_boundary, eq_scalar.
  rewrite !nth_error_bor, !nth_error_map, !nth_error_col, H. reflexivity.
Qed.

Lemma in_interior_at i r :
  nth_error xyz i = Some r -> nth_error in_interior i = Some (interior_row r).
Proof.
  intros H. unfold in_interior, gt_scalar.
  rewrite !nth_error_band, !nth_error_map, !nth_error_col, H. reflexivity.
Qed.

Lemma rnd_at i r : nth_error xyz i = Some r -> nth_error (rnd g) i = Some (g i).
Proof.
  intros H.
  assert (L : i < length xyz) by (apply nth_error_Some; congruence).
  exact (nth_error_uniform01 g (length xyz) i L).
Qed.

Lemma masked_at (region : list bool) (cmp : F64.t -> bool) (f : vec -> bool) i :
  (forall r, nth_error xyz i = Some r -> nth_error region i = Some (f r)) ->
  nth_error (band region (map cmp (rnd g))) i =
  option_map (fun r => f r && cmp (g i)) (nth_error xyz i).
Proof.
  intros Hreg. rewrite nth_error_band, nth_error_map.
  destruct (nth_error xyz i) as [r | ] eqn:E.
  - rewrite (Hreg r eq_refl), (rnd_at i r E). reflexivity.
  - assert (L : length xyz <= i) by now apply nth_error_None.
    assert (R : nth_error (rnd g) i = None).
    { apply nth_error_None. unfold rnd, uniform01. now rewrite length_map, length_seq. }
    rewrite R. simpl. now destruct (nth_error region i).
Qed.

Lemma In_selected (region : list bool) (cmp : F64.t -> bool) (f : vec -> bool) r :
  (forall i r, nth_error xyz i = Some r -> nth_error region i = Some (f r)) ->
  In r (select (band region (map cmp (rnd g))) xyz) <->
  exists i, nth_error xyz i = Some r /\ f r = true /\ cmp (g i) = true.
Proof.
  intros Hreg. rewrite select_In. split.
  - intros (i & H1 & H2). exists i. rewrite (masked_at region cmp f), H2 in H1 by auto.
    simpl in H1. injection H1 as H1. apply andb_prop in H1. tauto.
  - intros (i & H1 & H2 & H3). exists i. split; auto.
    rewrite (masked_at region cmp f), H1 by auto. simpl. now rewrite H2, H3.
Qed.

Lemma In_diffuse r :
  In r (xyz_c_diffuse g) <->
  exists i, nth_error xyz i = Some r /\ boundary_row r = true
            /\ ltb (g i) (lit 7 1) = true.
Proof. apply (In_selected on_boundary (fun x => ltb x (lit 7 1))), on_boundary_at. Qed.

Lemma In_mirror r :
  In r (xyz_c_mirror g) <->
  exists i, nth_error xyz i = Some r /\ boundary_row r = true
            /\ leb (lit 7 1) (g i) = true.
Proof. apply (In_selected on_boundary (fun x => leb (lit 7 1) x)), on_boundary_at. Qed.

Lemma In_glass r :
  In r (xyz_p_glass g) <->
  exists i, nth_error xyz i = Some r /\ interior_row r = true
            /\ ltb (g i) (lit 4 1) = true.
Proof. apply (In_selected in_interior (fun x => ltb x (lit 4 1))), in_interior_at. Qed.

Lemma In_plastic r :
  In r (xyz_p_plastic g) <->
  exists i, nth_error xyz i = Some r /\ interior_row r = true
            /\ ltb (lit 9 1) (g i) = true.
Proof. apply (In_selected in_interior (fun x => ltb (lit 9 1) x)), in_interior_at. Qed.

Lemma same_index i j r :
  nth_error xyz i = Some r -> nth_error xyz j = Some r -> i = j.
Proof.
  intros Hi Hj. apply (proj1 (NoDup_nth_error xyz) xyz_NoDup).
  - apply nth_error_Some. congruence.
  - congruence.
Qed.

End Masks.
End DataFacts.

(** ** Runs of the notebook *)

Module RunFacts.
Import F64 Np Data Run Notebook Obs.

Lemma straight_runs m evs fin :
  straight m evs fin ->
  forall w h, exists tr,
    fst (m w h) = h ++ tr /\ runs_as evs fin tr (snd (m w h)) /\ answered w h tr.
Proof.
  induction 1 as [ev | e | ev m evs fin Hm IH]; intros w h.
  - unfold perform. destruct (w h ev) as [v | e] eqn:E.
    + exists [(ev, Returned v)]. simpl. repeat split; auto. constructor.
    + exists [(ev, Raised e)]. simpl. repeat split; auto. constructor.
  - exists []. simpl. rewrite app_nil_r. repeat split. constructor.
  - unfold bind, perform. destruct (w h ev) as [v | e] eqn:E.
    + destruct (IH w (h ++ [(ev, Returned v)])) as (tr & H1 & H2 & H3).
      exists ((ev, Returned v) :: tr). simpl. rewrite H1, <- app_assoc. simpl.
      repeat split; auto. now constructor.
    + exists [(ev, Raised e)]. simpl. repeat split; auto. constructor.
Qed.

Lemma runs_as_prefix evs fin tr r : runs_as evs fin tr r -> prefix (events tr) evs.
Proof.
  induction 1 as [ev v | e | ev evs fin e | ev evs fin v tr r H [rest IH]].
  - now exists [].
  - now exists [].
  - now exists evs.
  - exists rest. simpl. now rewrite IH.
Qed.

Lemma runs_as_complete evs fin tr v :
  runs_as evs fin tr (inr v) -> events tr = evs /\ Forall returned tr /\ fin = None.
Proof.
  remember (inr v) as r eqn:E.
  induction 1 as [ev v' | e | ev evs fin e | ev evs fin v' tr r H IH].
  - repeat split. repeat constructor.
  - discriminate.
  - discriminate.
  - destruct (IH E) as (H1 & H2 & H3). repeat split.
    + simpl. now rewrite H1.
    + constructor; [exact I | exact H2].
    + exact H3.
Qed.

Lemma runs_as_raised evs fin tr e :
  runs_as evs fin tr (inl e) ->
  (exists tr0 ev, tr = tr0 ++ [(ev, Raised e)] /\ Forall returned tr0)
  \/ (fin = Some e /\ events tr = evs /\ Forall returned tr).
Proof.
  remember (inl e) as r eqn:E.
  induction 1 as [ev v' | e' | ev evs fin e' | ev evs fin v' tr r H IH].
  - discriminate.
  - injection E as ->. right. repeat split. constructor.
  - injection E as ->. left. now exists [], ev.
  - destruct (IH E) as [(tr0 & ev0 & -> & H2) | (H1 & H2 & H3)].
    + left. exists ((ev, Returned v') :: tr0), ev0. split; [reflexivity | ].
      constructor; [exact I | exact H2].
    + right. repeat split; [exact H1 | simpl; now rewrite H2 | ].
      constructor; [exact I | exact H3].
Qed.


Lemma runs_as_returned evs fin tr r :
  runs_as evs fin tr r -> forall k, k < length tr -> Forall returned (firstn k tr).
Proof.
  induction 1 as [ev v | e | ev evs fin e | ev evs fin v tr r H IH];
    intros k Hk; simpl in Hk.
  - assert (k = 0) by lia. subst. constructor.
  - lia.
  - assert (k = 0) by lia. subst. constructor.
  - destruct k as [ | k]; simpl; constructor; [exact I | ].
    apply IH. lia.
Qed.

Lemma straight_lift (x : mat) (k : mat -> M pyval) evs fin :
  straight (k x) evs fin -> straight (bind (lift (inr x)) k) evs fin.
Proof. intro H. exact H. Qed.

Lemma straight_lift_val (x : pyval) (k : pyval -> M pyval) evs fin :
  straight (k x) evs fin -> straight (bind (lift (inr x)) k) evs fin.
Proof. intro H. exact H. Qed.

Lemma straight_lift_raise {A} (e : exn) (k : A -> M pyval) :
  straight (bind (lift (inl e)) k) [] (Some e).
Proof. exact (straight_stop e). Qed.

(** Unfolds the notebook down to its list of events, leaving the data alone. *)
Ltac reveal_events :=
  lazy [script_events body_events events trace result run script body new call
        print bind perform quiet fst snd app map lift setitem2 m_clear_glass
        dict_get dict_set ret raise String.eqb Ascii.eqb Bool.eqb].

Ltac straight_steps :=
  repeat first
    [ apply straight_last
    | apply straight_seq
    | apply straight_lift_raise
    | apply straight_lift; cbv beta
    | apply straight_lift_val; cbv beta ].

Section Script.
Variables mp mm : pyval.
Variable mc : vec -> string -> exn + mat.
Variable g : nat -> F64.t.

(** The events of the notebook depend on [map_to_colors] through the one
    value it is asked for. *)
Lemma script_events_const obj :
  script_events mp mm mc g obj
  = script_events mp mm (fun _ _ => mc (col 1 (xyz_p_glass g)) "jet") g obj.
Proof. reflexivity. Qed.

Lemma body_events_const obj :
  body_events mp mm mc g obj
  = body_events mp mm (fun _ _ => mc (col 1 (xyz_p_glass g)) "jet") g obj.
Proof. reflexivity. Qed.

Lemma body_straight obj :
  straight (body mp mm mc g obj) (body_events mp mm mc g obj)
           (colour_failure mc g).
Proof.
  rewrite body_events_const. unfold colour_failure, body.
  destruct (mc (col 1 (xyz_p_glass g)) "jet") as [e | m];
    match goal with
    | |- straight ?c ?l ?f =>
        let l' := eval lazy [body_events events body call print bind perform quiet
                             fst snd app map lift setitem2 m_clear_glass dict_get
                             dict_set ret raise String.eqb Ascii.eqb Bool.eqb] in l in
        change (straight c l' f)
    end;
    unfold call, print; straight_steps.
Qed.

Lemma script_events_cons obj :
  script_events mp mm mc g obj = construction :: body_events mp mm mc g obj.
Proof.
  rewrite script_events_const, body_events_const.
  destruct (mc (col 1 (xyz_p_glass g)) "jet"); reflexivity.
Qed.

Lemma run_unfold w :
  run mp mm mc g w =
  match w [] construction with
  | Returned v => body mp mm mc g v w [(construction, Returned v)]
  | Raised e => ([(construction, Raised e)], inl e)
  end.
Proof.
  unfold run, script, new, bind, perform. fold construction.
  now destruct (w [] construction).
Qed.

Lemma script_runs w :
  exists obj,
    runs_as (script_events mp mm mc g obj) (colour_failure mc g)
            (trace mp mm mc g w) (result mp mm mc g w)
    /\ answered w [] (trace mp mm mc g w)
    /\ exists o tr, trace mp mm mc g w = (construction, o) :: tr
                 /\ (forall e, o = Raised e -> tr = [])
                 /\ (forall v, o = Returned v -> v = obj).
Proof.
  unfold trace, result. rewrite run_unfold.
  destruct (w [] construction) as [v | e] eqn:E.
  - destruct (straight_runs _ _ _ (body_straight v) w [(construction, Returned v)])
      as (tr & H1 & H2 & H3).
    exists v. rewrite script_events_cons, H1. simpl. repeat split; auto.
    + now constructor.
    + exists (Returned v), tr. repeat split; congruence.
  - exists PyNone. rewrite script_events_cons. simpl. repeat split; auto.
    + constructor.
    + exists (Raised e), []. repeat split; congruence.
Qed.

Lemma trace_prefix w :
  exists obj, prefix (events (trace mp mm mc g w)) (script_events mp mm mc g obj).
Proof.
  destruct (script_runs w) as (obj & H & _). exists obj.
  eapply runs_as_prefix, H.
Qed.

Lemma trace_complete w :
  completes mp mm mc g w ->
  exists obj m,
    mc (col 1 (xyz_p_glass g)) "jet" = inr m
    /\ events (trace mp mm mc g w) = script_events mp mm (fun _ _ => inr m) g obj.
Proof.
  intros [v Hv]. destruct (script_runs w) as (obj & H & _).
  rewrite Hv in H. apply runs_as_complete in H as (H1 & _ & H3).
  rewrite script_events_const in H1. unfold colour_failure in H3.
  destruct (mc (col 1 (xyz_p_glass g)) "jet") as [e | m]; [discriminate H3 | ].
  now exists obj, m.
Qed.

Lemma forallb_prefix {A} (P : A -> bool) l1 l2 :
  prefix l1 l2 -> forallb P l2 = true -> forallb P l1 = true.
Proof. intros [r ->]. rewrite forallb_app. intros H. now apply andb_prop in H. Qed.

Lemma Forall_prefix {A} (P : A -> Prop) l1 l2 :
  prefix l1 l2 -> Forall P l2 -> Forall P l1.
Proof. intros [r ->] H. now apply Forall_app in H. Qed.

(** A property of the events of the notebook, whatever [map_to_colors]
    answers, is a property of the events of every run. *)
Lemma events_cases (Q : list event -> Prop) obj :
  (forall oc, Q (script_events mp mm (fun _ _ => oc) g obj)) ->
  Q (script_events mp mm mc g obj).
Proof. intros H. rewrite script_events_const. apply H. Qed.

Lemma forallb_trace (P : event -> bool) w :
  (forall oc obj, forallb P (script_events mp mm (fun _ _ => oc) g obj) = true) ->
  forallb P (events (trace mp mm mc g w)) = true.
Proof.
  intros H. destruct (trace_prefix w) as [obj Hp].
  eapply forallb_prefix; [exact Hp | ].
  apply (events_cases (fun l => forallb P l = true)). intros oc. apply H.
Qed.

End Script.
End RunFacts.

(** ** Order and initial parts *)

Module OrderFacts.
Import Obs.

Lemma all_before_precede P Q evs : all_before P Q evs = true -> precede P Q evs.
Proof.
  induction evs as [ | ev rest IH]; intros H i j a b Hi Hj Pa Qb.
  - destruct i; discriminate.
  - simpl in H. apply andb_prop in H as [H1 H2].
    destruct j as [ | j].
    + simpl in Hj. injection Hj as <-. rewrite Qb in H1. simpl in H1.
      assert (Hin : In a (ev :: rest)) by (eapply nth_error_In; eauto).
      destruct Hin as [-> | Hin].
      * rewrite Pa in H1. discriminate.
      * apply andb_prop in H1 as [_ H1].
        rewrite forallb_forall in H1. specialize (H1 a Hin).
        rewrite Pa in H1. discriminate.
    + destruct i as [ | i]; [lia | ].
      simpl in Hi, Hj. specialize (IH H2 i j a b Hi Hj Pa Qb). lia.
Qed.

Lemma prefix_firstn {A} (l1 l2 : list A) : prefix l1 l2 -> l1 = firstn (length l1) l2.
Proof.
  intros [r ->]. rewrite firstn_app, Nat.sub_diag, firstn_all. simpl.
  now rewrite app_nil_r.
Qed.

Lemma prefix_filter {A} (P : A -> bool) l1 l2 :
  prefix l1 l2 -> prefix (filter P l1) (filter P l2).
Proof. intros [r ->]. exists (filter P r). apply filter_app. Qed.

Lemma prefix_map {A B} (f : A -> B) l1 l2 :
  prefix l1 l2 -> prefix (map f l1) (map f l2).
Proof. intros [r ->]. exists (map f r). apply map_app. Qed.

Lemma prefix_NoDup {A} (l1 l2 : list A) : prefix l1 l2 -> NoDup l2 -> NoDup l1.
Proof. intros [r ->]. apply NoDup_app_remove_r. Qed.

Lemma prefix_agree {A} (l1 l2 l : list A) : prefix l1 l -> prefix l2 l -> agree l1 l2.
Proof.
  revert l2 l. induction l1 as [ | x l1 IH]; intros l2 l H1 H2.
  - left. now exists l2.
  - destruct l2 as [ | y l2].
    + right. now exists (x :: l1).
    + destruct H1 as [r1 ->], H2 as [r2 H2]. simpl in H2. injection H2 as -> H2.
      destruct (IH l2 (l1 ++ r1)) as [[r Hr] | [r Hr]].
      * now exists r1.
      * now exists r2.
      * left. exists r. simpl. now rewrite Hr.
      * right. exists r. simpl. now rewrite Hr.
Qed.

Lemma prefix_trans {A} (l1 l2 l3 : list A) : prefix l1 l2 -> prefix l2 l3 -> prefix l1 l3.
Proof. intros [r ->] [r' ->]. exists (r ++ r'). now rewrite app_assoc. Qed.

Lemma prefix_length {A} (l1 l2 : list A) : prefix l1 l2 -> length l1 <= length l2.
Proof. intros [r ->]. rewrite length_app. lia. Qed.

Lemma precede_prefix P Q l1 l2 : prefix l1 l2 -> precede P Q l2 -> precede P Q l1.
Proof.
  intros [r ->] H i j a b Hi Hj. apply (H i j a b).
  - rewrite nth_error_app1; [exact Hi | apply nth_error_Some; congruence].
  - rewrite nth_error_app1; [exact Hj | apply nth_error_Some; congruence].
Qed.

Lemma answered_last w h tr ev o :
  Run.answered w h (tr ++ [(ev, o)]) -> w (h ++ tr) ev = o.
Proof.
  revert h. induction tr as [ | [ev' o'] tr IH]; simpl; intros h H.
  - rewrite app_nil_r. tauto.
  - destruct H as [_ H]. apply IH in H. now rewrite <- app_assoc in H.
Qed.

(** How a run ends: it has gone through all its events, none of which
    raised; or its last event raised and that exception is its result. *)
Lemma runs_as_cases evs fin tr r :
  Run.runs_as evs fin tr r ->
  (Forall Run.returned tr /\ Run.events tr = evs
   /\ match fin with Some e => r = inl e | None => exists v, r = inr v end)
  \/ (exists tr0 ev e,
        tr = tr0 ++ [(ev, Raised e)] /\ Forall Run.returned tr0 /\ r = inl e).
Proof.
  induction 1 as [ev v | e | ev evs fin e | ev evs fin v tr r H IH].
  - left. repeat split; [repeat constructor | now exists v].
  - left. repeat split. constructor.
  - right. exists [], ev, e. repeat split. constructor.
  - destruct IH as [(H1 & H2 & H3) | (tr0 & ev0 & e & -> & H2 & H3)].
    + left. repeat split; [constructor; [exact I | exact H1] | | exact H3].
      simpl. now rewrite H2.
    + right. exists ((ev, Returned v) :: tr0), ev0, e. repeat split; auto.
      constructor; [exact I | exact H2].
Qed.

End OrderFacts.

(** ** The calls of the notebook *)

Module Claims.
Import F64 Np Data Run Notebook Obs RunFacts OrderFacts.

(** C1 as stated fails: in a run where nothing raises, the notebook calls a
    method that is not in the list of the system overview ([set_uint], and
    also [set_float], [set_background], [set_ambient]). *)
Lemma overview_incomplete :
  ~ (forallb (within overview_methods)
       (events (trace PyNone PyNone grey_colors cycle_samples (quiet (PyObject 0)))) = true).
Proof. lazy. discriminate. Qed.

(** C1, amended: in every run, every method the notebook calls on the
    renderer object is one of the methods of the system overview or one of
    the setters [set_uint], [set_float], [set_background], [set_ambient]. *)
Theorem calls_within_methods mp mm mc g w :
  forallb (within (overview_methods ++ setter_methods))
          (events (trace mp mm mc g w)) = true.
Proof. apply forallb_trace. intros [e | m] obj; reflexivity. Qed.

Lemma order_script initial mp mm oc g obj :
  all_before (calls_one_of initial) (is_call "start")
             (script_events mp mm (fun _ _ => oc) g obj) = true ->
  precede (calls_one_of initial) (is_call "start")
          (script_events mp mm (fun _ _ => oc) g obj)
  /\ precede (is_call "start") (calls_one_of update_methods)
             (script_events mp mm (fun _ _ => oc) g obj)
  /\ length (filter (is_call "start") (script_events mp mm (fun _ _ => oc) g obj)) = 1.
Proof.
  intros H. split; [ | split].
  - now apply all_before_precede.
  - apply all_before_precede. destruct oc; reflexivity.
  - destruct oc; reflexivity.
Qed.

(** C2 as stated fails: with [set_uint] among the initial configuration
    methods, the call [set_uint("path_seg_range", 2, 4, refresh=True)] of
    cell 16 (event 26) comes after [start] (event 19). *)
Lemma set_uint_after_start :
  ~ lifecycle initial_methods
      (events (trace PyNone PyNone grey_colors cycle_samples (quiet (PyObject 0)))).
Proof.
  intros (_ & H & _).
  assert (L : 26 < 19) by (eapply (H 26 19); reflexivity).
  lia.
Qed.

(** C2, amended: in every run, every call of [set_param], [setup_material],
    [set_data], [setup_camera], [set_background], [set_ambient],
    [set_float], [add_postproc] and [setup_light] precedes every [start]
    call, every [update_material], [update_data] and [update_light] call
    follows it, and there is at most one [start]; in a run that completes
    there is exactly one [start], [close] is the last event, and [set_uint]
    is called twice, once before [start] with (15, 30) and once after it
    with (2, 4) and [refresh=True]. *)
Theorem lifecycle_order mp mm mc g w :
  precede (calls_one_of scene_methods) (is_call "start")
          (events (trace mp mm mc g w))
  /\ precede (is_call "start") (calls_one_of update_methods)
             (events (trace mp mm mc g w))
  /\ length (filter (is_call "start") (events (trace mp mm mc g w))) <= 1
  /\ (completes mp mm mc g w ->
      length (filter (is_call "start") (events (trace mp mm mc g w))) = 1
      /\ (exists obj,
            last (events (trace mp mm mc g w)) construction = ECall obj "close" [] [])
      /\ exists obj i j k,
           i < j < k
           /\ nth_error (events (trace mp mm mc g w)) i
              = Some (ECall obj "set_uint"
                            [PyStr "path_seg_range"; PyInt 15; PyInt 30] [])
           /\ nth_error (events (trace mp mm mc g w)) j = Some (ECall obj "start" [] [])
           /\ nth_error (events (trace mp mm mc g w)) k
              = Some (ECall obj "set_uint"
                            [PyStr "path_seg_range"; PyInt 2; PyInt 4]
                            [("refresh", PyBool true)])
           /\ length (calls_of "set_uint" (trace mp mm mc g w)) = 2).
Proof.
  destruct (trace_prefix mp mm mc g w) as [obj Hp].
  assert (K : precede (calls_one_of scene_methods) (is_call "start")
                      (script_events mp mm mc g obj)
              /\ precede (is_call "start") (calls_one_of update_methods)
                         (script_events mp mm mc g obj)
              /\ length (filter (is_call "start") (script_events mp mm mc g obj)) = 1).
  { rewrite script_events_const. apply order_script.
    destruct (mc _ _); reflexivity. }
  destruct K as (K1 & K2 & K3).
  split; [exact (precede_prefix _ _ _ _ Hp K1) | ].
  split; [exact (precede_prefix _ _ _ _ Hp K2) | ].
  split.
  - rewrite <- K3. apply prefix_length, prefix_filter, Hp.
  - intros Hc. destruct (trace_complete mp mm mc g w Hc) as (o & m & _ & E).
    unfold calls_of. rewrite E. split; [reflexivity | split].
    + now exists o.
    + exists o, 2, 19, 26. repeat split; lia.
Qed.

(** The amended C2 at a run where nothing raises. *)
Lemma lifecycle_order_witness :
  length (filter (is_call "start")
                 (events (trace PyNone PyNone grey_colors cycle_samples
                                (quiet (PyObject 0))))) = 1
  /\ exists obj,
       last (events (trace PyNone PyNone grey_colors cycle_samples (quiet (PyObject 0))))
            construction
       = ECall obj "close" [] [].
Proof.
  refine (let H := proj2 (proj2 (proj2
            (lifecycle_order PyNone PyNone grey_colors cycle_samples
               (quiet (PyObject 0))))) _ in conj (proj1 H) (proj1 (proj2 H))).
  exists PyNone. reflexivity.
Defined.

(** C3: every [set_uint] call of every run has the name ["path_seg_range"]
    and two ints [lo], [hi] with [0 <= lo <= hi]; the pairs passed are
    (15, 30) and then (2, 4), both of them in a run that completes. *)
Theorem set_uint_arguments mp mm mc g w :
  forallb set_uint_shape (events (trace mp mm mc g w)) = true
  /\ prefix (map uint_range (calls_of "set_uint" (trace mp mm mc g w)))
            [Some (15, 30)%Z; Some (2, 4)%Z]
  /\ (completes mp mm mc g w ->
      map uint_range (calls_of "set_uint" (trace mp mm mc g w))
      = [Some (15, 30)%Z; Some (2, 4)%Z]).
Proof.
  repeat split.
  - apply forallb_trace. intros [e | m] obj; reflexivity.
  - destruct (trace_prefix mp mm mc g w) as [obj H].
    apply (prefix_trans _ (map uint_range
                             (filter (is_call "set_uint") (script_events mp mm mc g obj)))).
    + apply prefix_map, prefix_filter, H.
    + rewrite script_events_const. destruct (mc _ _).
      * now exists [Some (2, 4)%Z].
      * now exists [].
  - intros Hc. destruct (trace_complete mp mm mc g w Hc) as (obj & m & _ & E).
    unfold calls_of. now rewrite E.
Qed.

(** C3 at a run where nothing raises. *)
Lemma set_uint_arguments_witness :
  map uint_range
      (calls_of "set_uint" (trace PyNone PyNone grey_colors cycle_samples (quiet (PyObject 0))))
  = [Some (15, 30)%Z; Some (2, 4)%Z].
Proof.
  apply (set_uint_arguments PyNone PyNone grey_colors cycle_samples (quiet (PyObject 0))).
  exists PyNone. reflexivity.
Defined.

Lemma light_names_NoDup : NoDup light_names.
Proof.
  unfold light_names.
  repeat constructor; simpl; intuition discriminate.
Qed.

(** C4: every [setup_light] call of every run has one positional argument,
    a string, and the keywords [pos], [color], [radius]; the names passed
    are pairwise distinct, and they are "light1", "light2", "light3" in a
    run that completes. *)
Theorem setup_light_arguments mp mm mc g w :
  forallb setup_light_shape (events (trace mp mm mc g w)) = true
  /\ prefix (map first_arg (calls_of "setup_light" (trace mp mm mc g w))) light_names
  /\ NoDup (map first_arg (calls_of "setup_light" (trace mp mm mc g w)))
  /\ (completes mp mm mc g w ->
      map first_arg (calls_of "setup_light" (trace mp mm mc g w)) = light_names).
Proof.
  assert (P : prefix (map first_arg (calls_of "setup_light" (trace mp mm mc g w)))
                     light_names).
  { destruct (trace_prefix mp mm mc g w) as [obj H].
    apply (prefix_trans _ (map first_arg
                             (filter (is_call "setup_light")
                                     (script_events mp mm mc g obj)))).
    - apply prefix_map, prefix_filter, H.
    - rewrite script_events_const. destruct (mc _ _); now exists []. }
  repeat split; auto.
  - apply forallb_trace. intros [e | m] obj; reflexivity.
  - eapply prefix_NoDup; [exact P | apply light_names_NoDup].
  - intros Hc. destruct (trace_complete mp mm mc g w Hc) as (obj & m & _ & E).
    unfold calls_of. now rewrite E.
Qed.

(** C4 at a run where nothing raises. *)
Lemma setup_light_arguments_witness :
  map first_arg
      (calls_of "setup_light" (trace PyNone PyNone grey_colors cycle_samples (quiet (PyObject 0))))
  = light_names.
Proof.
  apply (setup_light_arguments PyNone PyNone grey_colors cycle_samples (quiet (PyObject 0))).
  exists PyNone. reflexivity.
Defined.

Lemma data_ext g1 g2 :
  rnd g1 = rnd g2 ->
  xyz_c_diffuse g1 = xyz_c_diffuse g2 /\ xyz_c_mirror g1 = xyz_c_mirror g2
  /\ xyz_p_glass g1 = xyz_p_glass g2 /\ xyz_p_plastic g1 = xyz_p_plastic g2.
Proof.
  intros H. unfold xyz_c_diffuse, xyz_c_mirror, xyz_p_glass, xyz_p_plastic.
  rewrite H. repeat split; reflexivity.
Qed.

Lemma signatures_ext mp mm mc g1 g2 obj1 obj2 :
  rnd g1 = rnd g2 ->
  map signature (script_events mp mm mc g1 obj1)
  = map signature (script_events mp mm mc g2 obj2).
Proof.
  intros H. destruct (data_ext g1 g2 H) as (H1 & H2 & H3 & H4).
  rewrite (script_events_const mp mm mc g1), (script_events_const mp mm mc g2).
  rewrite H3. destruct (mc (col 1 (xyz_p_glass g2)) "jet") as [e | m];
    reveal_events; unfold signature; rewrite H1, H2, H3, H4; reflexivity.
Qed.

Lemma colour_failure_ext mc g1 g2 :
  rnd g1 = rnd g2 -> colour_failure mc g1 = colour_failure mc g2.
Proof.
  intros H. destruct (data_ext g1 g2 H) as (_ & _ & H3 & _).
  unfold colour_failure. now rewrite H3.
Qed.

Lemma script_operations mp mm mc g obj :
  map op_name (script_events mp mm mc g obj)
  = match colour_failure mc g with
    | None => notebook_operations
    | Some _ => operations_before_colours
    end.
Proof.
  rewrite script_events_const. unfold colour_failure.
  destruct (mc (col 1 (xyz_p_glass g)) "jet"); reflexivity.
Qed.



(** C5: in every world, each recorded outcome is what the world answered;
    the operations and arguments issued agree, as far as both runs go, with
    those issued in any other world, whatever the calls return there, so no
    returned value steers the notebook; and a run ends in one of two ways.
    Either no event raised: then all the operations of the notebook were
    issued and the run completes, or, when [map_to_colors] raises in cell
    14, the operations before cell 14 were issued and that exception is the
    result.  Or the last event issued raised, every earlier one having
    returned, and the exception the world raised there is the result:
    nothing is caught and nothing is done after an exception. *)
Theorem no_error_handling mp mm mc g w :
  answered w [] (trace mp mm mc g w)
  /\ (forall w', agree (map signature (events (trace mp mm mc g w)))
                       (map signature (events (trace mp mm mc g w'))))
  /\ ((Forall returned (trace mp mm mc g w)
       /\ match colour_failure mc g with
          | None => (exists v, result mp mm mc g w = inr v)
                    /\ map op_name (events (trace mp mm mc g w)) = notebook_operations
          | Some e => result mp mm mc g w = inl e
                      /\ map op_name (events (trace mp mm mc g w))
                         = operations_before_colours
          end)
      \/ (exists tr0 ev e,
            trace mp mm mc g w = tr0 ++ [(ev, Raised e)]
            /\ Forall returned tr0
            /\ w tr0 ev = Raised e
            /\ result mp mm mc g w = inl e)).
Proof.
  destruct (script_runs mp mm mc g w) as (obj & H & Ha & _).
  split; [exact Ha | split].
  - intros w'. destruct (trace_prefix mp mm mc g w') as [obj' Hp'].
    pose proof (runs_as_prefix _ _ _ _ H) as Hp.
    apply (prefix_map signature) in Hp, Hp'.
    rewrite (signatures_ext mp mm mc g g obj' obj eq_refl) in Hp'.
    exact (prefix_agree _ _ _ Hp Hp').
  - destruct (runs_as_cases _ _ _ _ H) as [(F & E & R) | (tr0 & ev & e & E & F & R)].
    + left. split; [exact F | ].
      pose proof (script_operations mp mm mc g obj) as Ho. rewrite <- E in Ho.
      destruct (colour_failure mc g); split; assumption.
    + right. exists tr0, ev, e. repeat split; auto.
      rewrite E in Ha. exact (answered_last w [] tr0 ev _ Ha).
Qed.

(** A run in which [start] raises: the exception is the result, and the
    record ends at [start]; [close] is not called. *)
Example start_raises :
  let w := no_display (PyObject 0) in
  result PyNone PyNone grey_colors cycle_samples w = inl (Exn "TclError" "no display")
  /\ map op_name (events (trace PyNone PyNone grey_colors cycle_samples w))
     = firstn 20 notebook_operations.
Proof. split; reflexivity. Qed.

(** A run in which no event raises and [map_to_colors] does: with samples
    that are all 0.5 there is no glass particle, the function raises on the
    empty array, and the run ends there, after the first [update_data]. *)
Example colours_raise :
  let w := quiet (PyObject 0) in
  result PyNone PyNone span_colors flat_samples w
  = inl (Exn "ValueError" "zero-size array")
  /\ map op_name (events (trace PyNone PyNone span_colors flat_samples w))
     = operations_before_colours.
Proof. split; vm_compute; reflexivity. Qed.



Lemma script_applied_to mp mm mc g obj :
  Forall (applied_to obj) (script_events mp mm mc g obj).
Proof.
  rewrite script_events_const. destruct (mc _ _); reveal_events; repeat constructor.
Qed.

Lemma script_one_new mp mm mc g obj :
  filter is_new (script_events mp mm mc g obj) = [construction].
Proof. rewrite script_events_const. destruct (mc _ _); reflexivity. Qed.

(** C7: in every run the only construction is [TkOptiX(start_now=False)],
    the first event, and every method call is applied to the object it
    returned. *)
Theorem one_renderer_object mp mm mc g w :
  filter is_new (events (trace mp mm mc g w)) = [construction]
  /\ Forall (on_object_of (trace mp mm mc g w)) (events (trace mp mm mc g w)).
Proof.
  destruct (script_runs mp mm mc g w) as (obj & H & _ & o & tr & E & Hr & Hv).
  apply runs_as_prefix in H.
  pose proof (prefix_filter is_new _ _ H) as P. rewrite script_one_new in P.
  pose proof (Forall_prefix _ _ _ H (script_applied_to mp mm mc g obj)) as F.
  rewrite E in P, F |- *. simpl in P, F |- *. split.
  - destruct P as [r P]. injection P as P. symmetry in P.
    apply app_eq_nil in P as [-> _]. reflexivity.
  - constructor; [exact I | ]. inversion F as [ | ? ? _ F']; subst.
    destruct o as [v | e].
    + rewrite <- (Hv v eq_refl) in F'.
      eapply Forall_impl; [ | exact F'].
      intros [ | self m args kw | ]; simpl; auto.
    + rewrite (Hr e eq_refl). constructor.
Qed.

End Claims.

(** ** Positions passed to the renderer *)

Module GridFacts.
Import F64 Np Data Run Notebook Obs F64Facts NpFacts DataFacts RunFacts OrderFacts.

Lemma vec_eqb_eq r1 r2 : vec_eqb r1 r2 = true <-> r1 = r2.
Proof.
  unfold vec_eqb. destruct (list_eq_dec F64.eq_dec r1 r2); split; congruence.
Qed.

Lemma NoDup_map_inj {A B} (f : A -> B) l x y :
  NoDup (map f l) -> In x l -> In y l -> f x = f y -> x = y.
Proof.
  induction l as [ | a l IH]; simpl; intros N Hx Hy E; [tauto | ].
  inversion N as [ | ? ? Hn N']; subst.
  destruct Hx as [-> | Hx], Hy as [-> | Hy]; auto.
  - exfalso. apply Hn. rewrite E. now apply in_map.
  - exfalso. apply Hn. rewrite <- E. now apply in_map.
Qed.

Lemma interior_not_boundary r :
  In r xyz -> interior_row r = true -> boundary_row r = true -> False.
Proof.
  assert (K : forallb (fun r => negb (interior_row r && boundary_row r)) xyz = true)
    by (vm_compute; reflexivity).
  intros Hin Hi Hb. rewrite forallb_forall in K. specialize (K r Hin).
  rewrite Hi, Hb in K. exact (Bool.diff_false_true K).
Qed.

Lemma shifted_off_grid r : In r xyz -> In (add_vec r half_step) xyz -> False.
Proof.
  assert (K : forallb (fun r => negb (existsb (vec_eqb (add_vec r half_step)) xyz)) xyz
              = true) by (vm_compute; reflexivity).
  intros Hin Hs. rewrite forallb_forall in K. specialize (K r Hin).
  apply negb_true_iff in K. rewrite <- not_true_iff_false in K. apply K.
  apply existsb_exists. exists (add_vec r half_step).
  split; [exact Hs | apply vec_eqb_eq; reflexivity].
Qed.

Lemma shift_injective r1 r2 :
  In r1 xyz -> In r2 xyz -> add_vec r1 half_step = add_vec r2 half_step -> r1 = r2.
Proof.
  apply (NoDup_map_inj (fun r => add_vec r half_step)).
  apply distinct_NoDup. vm_compute. reflexivity.
Qed.

Lemma shifted_is_moved r :
  In r xyz -> add_vec r half_step = moved_half_step r.
Proof.
  assert (K : forallb (fun r => vec_eqb (add_vec r half_step) (moved_half_step r)) xyz
              = true) by (vm_compute; reflexivity).
  intros Hin. rewrite forallb_forall in K.
  exact (proj1 (vec_eqb_eq _ _) (K r Hin)).
Qed.

Lemma moved_clear r :
  In r xyz -> interior_row r = true ->
  clear_of_walls (coord 0 (moved_half_step r)) = true
  /\ clear_of_walls (coord 1 (moved_half_step r)) = true
  /\ clear_of_walls (coord 2 (moved_half_step r)) = true.
Proof.
  assert (K : forallb (fun r => negb (interior_row r)
                                || (clear_of_walls (coord 0 (moved_half_step r))
                                    && clear_of_walls (coord 1 (moved_half_step r))
                                    && clear_of_walls (coord 2 (moved_half_step r))))
                      xyz = true) by (vm_compute; reflexivity).
  intros Hin Hi. rewrite forallb_forall in K. specialize (K r Hin).
  rewrite Hi in K. cbv beta iota delta [negb orb] in K.
  apply andb_prop in K as [K K3]. apply andb_prop in K as [K1 K2].
  split; [exact K1 | split; [exact K2 | exact K3]].
Qed.

Section Positions.
Variables mp mm : pyval.
Variable mc : vec -> string -> exn + mat.
Variable g : nat -> F64.t.

Lemma set_data_positions obj :
  map pos_rows (filter (is_call "set_data") (script_events mp mm mc g obj))
  = [ add_row (xyz_p_glass g) half_step; add_row (xyz_p_plastic g) half_step;
      xyz_c_diffuse g; xyz_c_mirror g ].
Proof. rewrite script_events_const. destruct (mc _ _); reflexivity. Qed.

Lemma particle_positions obj :
  map particle_rows (filter (is_call "set_data") (script_events mp mm mc g obj))
  = [ add_row (xyz_p_glass g) half_step; add_row (xyz_p_plastic g) half_step; []; [] ].
Proof. rewrite script_events_const. destruct (mc _ _); reflexivity. Qed.

Lemma pos_rows_other ev : is_call "set_data" ev = false -> pos_rows ev = [].
Proof. destruct ev; simpl; auto. now intros ->. Qed.

Lemma particle_rows_other ev : is_call "set_data" ev = false -> particle_rows ev = [].
Proof.
  intros H. unfold particle_rows. rewrite (pos_rows_other ev H).
  now destruct (has_geom _ ev).
Qed.

Lemma pos_rows_script obj ev p :
  In ev (script_events mp mm mc g obj) -> In p (pos_rows ev) ->
  In p (add_row (xyz_p_glass g) half_step) \/ In p (add_row (xyz_p_plastic g) half_step)
  \/ In p (xyz_c_diffuse g) \/ In p (xyz_c_mirror g).
Proof.
  intros Hev Hp. destruct (is_call "set_data" ev) eqn:E.
  - assert (H : In (pos_rows ev)
                   (map pos_rows (filter (is_call "set_data")
                                         (script_events mp mm mc g obj)))).
    { apply in_map, filter_In. now split. }
    rewrite set_data_positions in H.
    destruct H as [H | [H | [H | [H | []]]]]; rewrite <- H in Hp;
      [ left | right; left | right; right; left | right; right; right ]; exact Hp.
  - rewrite (pos_rows_other ev E) in Hp. destruct Hp.
Qed.

Lemma particle_rows_script obj ev p :
  In ev (script_events mp mm mc g obj) -> In p (particle_rows ev) ->
  In p (add_row (xyz_p_glass g) half_step) \/ In p (add_row (xyz_p_plastic g) half_step).
Proof.
  intros Hev Hp. destruct (is_call "set_data" ev) eqn:E.
  - assert (H : In (particle_rows ev)
                   (map particle_rows (filter (is_call "set_data")
                                              (script_events mp mm mc g obj)))).
    { apply in_map, filter_In. now split. }
    rewrite particle_positions in H.
    destruct H as [H | [H | [H | [H | []]]]]; rewrite <- H in Hp;
      [ left; exact Hp | right; exact Hp | destruct Hp | destruct Hp ].
  - rewrite (particle_rows_other ev E) in Hp. destruct Hp.
Qed.

Lemma glass_on_grid r : In r (xyz_p_glass g) -> In r xyz /\ interior_row r = true.
Proof.
  intros H. destruct (proj1 (In_glass g r) H) as (i & H1 & H2 & _).
  split; [exact (nth_error_In _ _ H1) | exact H2].
Qed.

Lemma plastic_on_grid r : In r (xyz_p_plastic g) -> In r xyz /\ interior_row r = true.
Proof.
  intros H. destruct (proj1 (In_plastic g r) H) as (i & H1 & H2 & _).
  split; [exact (nth_error_In _ _ H1) | exact H2].
Qed.

Lemma diffuse_on_grid r : In r (xyz_c_diffuse g) -> In r xyz /\ boundary_row r = true.
Proof.
  intros H. destruct (proj1 (In_diffuse g r) H) as (i & H1 & H2 & _).
  split; [exact (nth_error_In _ _ H1) | exact H2].
Qed.

Lemma mirror_on_grid r : In r (xyz_c_mirror g) -> In r xyz /\ boundary_row r = true.
Proof.
  intros H. destruct (proj1 (In_mirror g r) H) as (i & H1 & H2 & _).
  split; [exact (nth_error_In _ _ H1) | exact H2].
Qed.

End Positions.
End GridFacts.

(** ** The point sets *)

Module DataClaims.
Import F64 Np Data Run Notebook Obs F64Facts NpFacts DataFacts RunFacts OrderFacts GridFacts.

Lemma unit_sample_not_nan x : unit_sample x -> is_nan x = false.
Proof. intros [H _]. eapply leb_not_nan, H. Qed.

(** C8: with samples in [0, 1), a grid point with a coordinate equal to 0
    is in [xyz_c_diffuse] and not in [xyz_c_mirror] when its sample is below
    0.7, and in [xyz_c_mirror] and not in [xyz_c_diffuse] otherwise; no
    point is in both sets; the points of the two sets together are the grid
    points with a coordinate equal to 0. *)
Theorem boundary_partition g :
  (forall i, i < length xyz -> unit_sample (g i)) ->
  (forall i r, nth_error xyz i = Some r -> boundary_row r = true ->
     if ltb (g i) (lit 7 1)
     then In r (xyz_c_diffuse g) /\ ~ In r (xyz_c_mirror g)
     else In r (xyz_c_mirror g) /\ ~ In r (xyz_c_diffuse g))
  /\ (forall r, ~ (In r (xyz_c_diffuse g) /\ In r (xyz_c_mirror g)))
  /\ (forall r, In r (xyz_c_diffuse g) \/ In r (xyz_c_mirror g)
                <-> In r xyz /\ boundary_row r = true).
Proof.
  intros U.
  assert (D : forall r, ~ (In r (xyz_c_diffuse g) /\ In r (xyz_c_mirror g))).
  { intros r [H1 H2].
    destruct (proj1 (In_diffuse g r) H1) as (i & Hi & _ & Hlt).
    destruct (proj1 (In_mirror g r) H2) as (j & Hj & _ & Hle).
    rewrite (same_index i j r Hi Hj) in Hlt.
    apply ltb_not_leb in Hlt. congruence. }
  assert (C : forall i r, nth_error xyz i = Some r -> boundary_row r = true ->
     if ltb (g i) (lit 7 1) then In r (xyz_c_diffuse g) else In r (xyz_c_mirror g)).
  { intros i r Hi Hb. destruct (ltb (g i) (lit 7 1)) eqn:E.
    - apply (proj2 (In_diffuse g r)). exists i. repeat split; assumption.
    - apply (proj2 (In_mirror g r)). exists i. repeat split; try assumption.
      apply not_ltb_leb; [reflexivity | | exact E].
      apply unit_sample_not_nan, U, nth_error_Some. congruence. }
  split; [ | split; [exact D | ]].
  - intros i r Hi Hb. specialize (C i r Hi Hb).
    destruct (ltb (g i) (lit 7 1)); (split; [exact C | ]);
      intros H; apply (D r); split; assumption.
  - intros r. split.
    + intros [H | H].
      * exact (diffuse_on_grid g r H).
      * exact (mirror_on_grid g r H).
    + intros [Hin Hb]. destruct (In_nth_error _ _ Hin) as [i Hi].
      specialize (C i r Hi Hb).
      destruct (ltb (g i) (lit 7 1)); [left | right]; exact C.
Qed.

Lemma cycle_samples_unit i : unit_sample (cycle_samples i).
Proof.
  unfold cycle_samples.
  assert (H : (7 * i) mod 20 < 20) by (apply Nat.mod_upper_bound; discriminate).
  generalize dependent ((7 * i) mod 20). intros m H.
  do 20 (destruct m as [ | m]; [split; vm_compute; reflexivity | ]).
  lia.
Qed.

(** C9: no point is in both [xyz_p_glass] and [xyz_p_plastic]; a grid point
    with all coordinates positive whose sample lies in [0.4, 0.9] is in
    neither, and neither it nor its shifted position is a row of the [pos]
    argument of a [set_data] call of any run. *)
Theorem middle_particles_dropped mp mm mc g w :
  (forall r, ~ (In r (xyz_p_glass g) /\ In r (xyz_p_plastic g)))
  /\ (forall i r,
        nth_error xyz i = Some r -> interior_row r = true ->
        leb (lit 4 1) (g i) = true -> leb (g i) (lit 9 1) = true ->
        ~ In r (xyz_p_glass g) /\ ~ In r (xyz_p_plastic g)
        /\ Forall (fun ev => ~ In r (pos_rows ev)
                             /\ ~ In (add_vec r half_step) (pos_rows ev))
                  (events (trace mp mm mc g w))).
Proof.
  split.
  - intros r [H1 H2].
    destruct (proj1 (In_glass g r) H1) as (i & Hi & _ & Hlt).
    destruct (proj1 (In_plastic g r) H2) as (j & Hj & _ & Hgt).
    rewrite (same_index i j r Hi Hj) in Hlt.
    pose proof (ltb_trans _ _ _ Hgt Hlt) as K. vm_compute in K. discriminate.
  - intros i r Hi Hint Hlo Hhi.
    assert (Hin : In r xyz) by exact (nth_error_In _ _ Hi).
    assert (G : ~ In r (xyz_p_glass g)).
    { intros H. destruct (proj1 (In_glass g r) H) as (j & Hj & _ & Hlt).
      rewrite (same_index j i r Hj Hi) in Hlt.
      apply leb_not_ltb in Hlo. congruence. }
    assert (P : ~ In r (xyz_p_plastic g)).
    { intros H. destruct (proj1 (In_plastic g r) H) as (j & Hj & _ & Hgt).
      rewrite (same_index j i r Hj Hi) in Hgt.
      apply leb_not_ltb in Hhi. congruence. }
    split; [exact G | split; [exact P | ]].
    destruct (trace_prefix mp mm mc g w) as [obj Hp].
    eapply Forall_prefix; [exact Hp | ].
    apply Forall_forall. intros ev Hev. split; intros H.
    + destruct (pos_rows_script mp mm mc g obj ev _ Hev H) as [K | [K | [K | K]]].
      * destruct (proj1 (In_add_row _ _ _) K) as (r' & K' & E).
        apply (shifted_off_grid r' (proj1 (glass_on_grid g r' K'))).
        rewrite <- E. exact Hin.
      * destruct (proj1 (In_add_row _ _ _) K) as (r' & K' & E).
        apply (shifted_off_grid r' (proj1 (plastic_on_grid g r' K'))).
        rewrite <- E. exact Hin.
      * exact (interior_not_boundary r Hin Hint (proj2 (diffuse_on_grid g r K))).
      * exact (interior_not_boundary r Hin Hint (proj2 (mirror_on_grid g r K))).
    + destruct (pos_rows_script mp mm mc g obj ev _ Hev H) as [K | [K | [K | K]]].
      * destruct (proj1 (In_add_row _ _ _) K) as (r' & K' & E). apply G.
        rewrite (shift_injective r r' Hin (proj1 (glass_on_grid g r' K')) E). exact K'.
      * destruct (proj1 (In_add_row _ _ _) K) as (r' & K' & E). apply P.
        rewrite (shift_injective r r' Hin (proj1 (plastic_on_grid g r' K')) E). exact K'.
      * exact (shifted_off_grid r Hin (proj1 (diffuse_on_grid g _ K))).
      * exact (shifted_off_grid r Hin (proj1 (mirror_on_grid g _ K))).
Qed.

(** C10: the grid construction succeeds with [n^3 = 216] rows of three
    coordinates, each among 0, s, 2s, 3s, 4s, 5s; in every run, every row of
    the [pos] argument of a particle [set_data] call has three coordinates,
    those of a grid point with all coordinates positive, each moved by
    [0.5*s], and each of the three is at least [1.5*s] and strictly
    positive. *)
Theorem grid_and_particles mp mm mc g w :
  xyz_opt = Some xyz
  /\ length xyz = 216
  /\ Z.of_nat (length xyz) = (n ^ 3)%Z
  /\ forallb on_grid xyz = true
  /\ Forall (fun ev =>
               Forall (fun p =>
                         length p = 3
                         /\ (exists r,
                               In r xyz /\ interior_row r = true
                               /\ coord 0 p = add (coord 0 r) (mul (lit 5 1) s)
                               /\ coord 1 p = add (coord 1 r) (mul (lit 5 1) s)
                               /\ coord 2 p = add (coord 2 r) (mul (lit 5 1) s))
                         /\ leb (mul (lit 15 1) s) (coord 0 p) = true
                         /\ leb (mul (lit 15 1) s) (coord 1 p) = true
                         /\ leb (mul (lit 15 1) s) (coord 2 p) = true
                         /\ ltb (of_Z 0) (coord 0 p) = true
                         /\ ltb (of_Z 0) (coord 1 p) = true
                         /\ ltb (of_Z 0) (coord 2 p) = true)
                      (particle_rows ev))
            (events (trace mp mm mc g w)).
Proof.
  split; [apply xyz_opt_defined | ].
  split; [apply xyz_length | ].
  split; [rewrite xyz_length; reflexivity | ].
  split; [vm_compute; reflexivity | ].
  destruct (trace_prefix mp mm mc g w) as [obj Hp].
  eapply Forall_prefix; [exact Hp | ].
  apply Forall_forall. intros ev Hev. apply Forall_forall. intros p Hp'.
  assert (K : shifted_interior p).
  { destruct (particle_rows_script mp mm mc g obj ev p Hev Hp') as [K | K];
      destruct (proj1 (In_add_row _ _ _) K) as (r & K' & E); exists r.
    - destruct (glass_on_grid g r K') as [K1 K2].
      split; [exact K1 | split; [exact K2 | ]].
      rewrite E. exact (shifted_is_moved r K1).
    - destruct (plastic_on_grid g r K') as [K1 K2].
      split; [exact K1 | split; [exact K2 | ]].
      rewrite E. exact (shifted_is_moved r K1). }
  destruct K as (r & K1 & K2 & ->).
  destruct (moved_clear r K1 K2) as (C0 & C1 & C2).
  unfold clear_of_walls in C0, C1, C2.
  apply andb_prop in C0 as [A0 B0]. apply andb_prop in C1 as [A1 B1].
  apply andb_prop in C2 as [A2 B2].
  split; [reflexivity | ].
  split.
  - exists r. split; [exact K1 | split; [exact K2 | ]].
    split; [reflexivity | split; reflexivity].
  - split; [exact A0 | split; [exact A1 | split; [exact A2 | ]]].
    split; [exact B0 | split; [exact B1 | exact B2]].
Qed.

(** C8 at the samples [cycle_samples] and the corner [(0, 0, 0)] of the
    grid, whose sample is 0.0. *)
Lemma boundary_partition_witness :
  In [of_Z 0; of_Z 0; of_Z 0] (xyz_c_diffuse cycle_samples)
  /\ ~ In [of_Z 0; of_Z 0; of_Z 0] (xyz_c_mirror cycle_samples).
Proof.
  refine (proj1 (boundary_partition cycle_samples
                   (fun i _ => cycle_samples_unit i))
                0 [of_Z 0; of_Z 0; of_Z 0] _ _);
    vm_compute; reflexivity.
Defined.

(** C9 at grid point 44, [(s, s, 2s)], whose sample in [cycle_samples] is
    0.4. *)
Lemma middle_particles_dropped_witness :
  ~ In [s; s; mul (of_Z 2) s] (xyz_p_glass cycle_samples)
  /\ ~ In [s; s; mul (of_Z 2) s] (xyz_p_plastic cycle_samples)
  /\ Forall (fun ev => ~ In [s; s; mul (of_Z 2) s] (pos_rows ev)
                       /\ ~ In (add_vec [s; s; mul (of_Z 2) s] half_step) (pos_rows ev))
            (events (trace PyNone PyNone grey_colors cycle_samples (quiet (PyObject 0)))).
Proof.
  refine (proj2 (middle_particles_dropped PyNone PyNone grey_colors cycle_samples
                   (quiet (PyObject 0))) 44 [s; s; mul (of_Z 2) s] _ _ _ _);
    vm_compute; reflexivity.
Defined.

(** The sizes of the four point sets passed to [set_data] with the samples
    [cycle_samples]: the particle sets are not empty. *)
Example particles_present :
  map (fun ev => length (particle_rows ev))
      (calls_of "set_data" (trace PyNone PyNone grey_colors cycle_samples (quiet (PyObject 0))))
  = [50; 7; 0; 0]
  /\ map (fun ev => length (pos_rows ev))
      (calls_of "set_data" (trace PyNone PyNone grey_colors cycle_samples (quiet (PyObject 0))))
  = [50; 7; 63; 28].
Proof. split; vm_compute; reflexivity. Qed.

End DataClaims.

(** ** Facts about the scene *)

Module SceneFacts.
Import F64 Np Data Run Notebook Obs Scene.
Import F64Facts NpFacts DataFacts RunFacts OrderFacts GridFacts.

(** *** Lists *)

Lemma select_incl {A} (mask : list bool) (rows : list A) r :
  In r (select mask rows) -> In r rows.
Proof.
  intros H. destruct (proj1 (select_In mask rows r) H) as (i & _ & Hi).
  exact (nth_error_In _ _ Hi).
Qed.

Lemma select_cons {A} (b : bool) mask (x : A) rows :
  select (b :: mask) (x :: rows)
  = if b then x :: select mask rows else select mask rows.
Proof. unfold select. simpl. now destruct b. Qed.

Lemma NoDup_select {A} (mask : list bool) (rows : list A) :
  NoDup rows -> NoDup (select mask rows).
Proof.
  revert rows. induction mask as [ | b mask IH]; intros [ | x rows] N;
    try (unfold select; simpl; constructor).
  rewrite select_cons. inversion N as [ | ? ? Hx N']; subst.
  destruct b; [constructor | ]; auto.
  intros H. apply Hx. eapply select_incl, H.
Qed.

Lemma flat_map_filter {A B} (P : A -> bool) (f : A -> list B) l :
  (forall x, P x = false -> f x = []) ->
  flat_map f l = flat_map f (filter P l).
Proof.
  intros H. induction l as [ | x l IH]; simpl; auto.
  destruct (P x) eqn:E; simpl; rewrite IH; auto.
  now rewrite (H x E).
Qed.

Lemma flat_map_prefix {A B} (f : A -> list B) l1 l2 :
  prefix l1 l2 -> prefix (flat_map f l1) (flat_map f l2).
Proof. intros [r ->]. exists (flat_map f r). apply flat_map_app. Qed.

Lemma flat_map_length {A B C} (f : A -> list B) (h : A -> list C) l :
  Forall (fun x => length (f x) = length (h x)) l ->
  length (flat_map f l) = length (flat_map h l).
Proof.
  induction 1 as [ | x l Hx _ IH]; simpl; auto.
  rewrite !length_app. congruence.
Qed.

Lemma ForallOrdPairs_prefix {A} (R : A -> A -> Prop) l1 l2 :
  prefix l1 l2 -> ForallOrdPairs R l2 -> ForallOrdPairs R l1.
Proof.
  intros [r ->]. induction l1 as [ | x l1 IH]; simpl; intros H; [constructor | ].
  inversion H as [ | ? ? Hx Hl]; subst. constructor.
  - now apply Forall_app in Hx.
  - now apply IH.
Qed.

Lemma ForallOrdPairs_map {A B} (R : B -> B -> Prop) (f : A -> B) l :
  NoDup l ->
  (forall x y, In x l -> In y l -> x <> y -> R (f x) (f y)) ->
  ForallOrdPairs R (map f l).
Proof.
  induction l as [ | x l IH]; simpl; intros N H; [constructor | ].
  inversion N as [ | ? ? Hx N']; subst. constructor.
  - apply Forall_forall. intros b Hb.
    apply in_map_iff in Hb as (y & <- & Hy).
    apply H; auto. intros ->. contradiction.
  - apply IH; auto.
Qed.

(** *** The four sets together *)

Section Sets.
Variable g : nat -> F64.t.

Lemma interior_or_boundary r :
  In r xyz -> interior_row r = negb (boundary_row r).
Proof.
  assert (K : forallb (fun r => Bool.eqb (interior_row r) (negb (boundary_row r))) xyz
              = true) by (vm_compute; reflexivity).
  intros Hin. rewrite forallb_forall in K.
  exact (Bool.eqb_prop _ _ (K r Hin)).
Qed.

Lemma glass_not_plastic r : In r (xyz_p_glass g) -> ~ In r (xyz_p_plastic g).
Proof.
  intros H1 H2.
  destruct (proj1 (In_glass g r) H1) as (i & Hi & _ & Hlt).
  destruct (proj1 (In_plastic g r) H2) as (j & Hj & _ & Hgt).
  rewrite (same_index i j r Hi Hj) in Hlt.
  pose proof (ltb_trans _ _ _ Hgt Hlt) as K. vm_compute in K. discriminate K.
Qed.

Lemma diffuse_not_mirror r : In r (xyz_c_diffuse g) -> ~ In r (xyz_c_mirror g).
Proof.
  intros H1 H2.
  destruct (proj1 (In_diffuse g r) H1) as (i & Hi & _ & Hlt).
  destruct (proj1 (In_mirror g r) H2) as (j & Hj & _ & Hle).
  rewrite (same_index i j r Hi Hj) in Hlt.
  apply ltb_not_leb in Hlt. congruence.
Qed.

Lemma particles_interior r :
  In r (xyz_p_glass g ++ xyz_p_plastic g) -> In r xyz /\ interior_row r = true.
Proof.
  intros H. destruct (in_app_or _ _ _ H) as [K | K].
  - exact (glass_on_grid g r K).
  - exact (plastic_on_grid g r K).
Qed.

Lemma cubes_boundary r :
  In r (xyz_c_diffuse g ++ xyz_c_mirror g) -> In r xyz /\ boundary_row r = true.
Proof.
  intros H. destruct (in_app_or _ _ _ H) as [K | K].
  - exact (diffuse_on_grid g r K).
  - exact (mirror_on_grid g r K).
Qed.

Lemma particles_NoDup : NoDup (xyz_p_glass g ++ xyz_p_plastic g).
Proof.
  apply NoDup_app.
  - unfold xyz_p_glass. exact (NoDup_select _ _ xyz_NoDup).
  - unfold xyz_p_plastic. exact (NoDup_select _ _ xyz_NoDup).
  - exact glass_not_plastic.
Qed.

Lemma cubes_NoDup : NoDup (xyz_c_diffuse g ++ xyz_c_mirror g).
Proof.
  apply NoDup_app.
  - unfold xyz_c_diffuse. exact (NoDup_select _ _ xyz_NoDup).
  - unfold xyz_c_mirror. exact (NoDup_select _ _ xyz_NoDup).
  - exact diffuse_not_mirror.
Qed.

Lemma placed_split :
  placed g = (xyz_p_glass g ++ xyz_p_plastic g) ++ (xyz_c_diffuse g ++ xyz_c_mirror g).
Proof. unfold placed. now rewrite <- app_assoc. Qed.

Lemma placed_on_grid r : In r (placed g) -> In r xyz.
Proof.
  rewrite placed_split. intros H. destruct (in_app_or _ _ _ H) as [K | K].
  - exact (proj1 (particles_interior r K)).
  - exact (proj1 (cubes_boundary r K)).
Qed.

Lemma placed_NoDup : NoDup (placed g).
Proof.
  rewrite placed_split. apply NoDup_app.
  - exact particles_NoDup.
  - exact cubes_NoDup.
  - intros r H1 H2.
    destruct (particles_interior r H1) as [Hin Hi].
    destruct (cubes_boundary r H2) as [_ Hb].
    exact (interior_not_boundary r Hin Hi Hb).
Qed.

End Sets.
(** *** Boxes of the grid *)

Lemma grid_boxes_apart : all_apart (map (fun r => (r, box_of_point r)) xyz) = true.
Proof. vm_compute. reflexivity. Qed.

Lemma grid_boxes_in_scene : forallb (fun r => in_scene (box_of_point r)) xyz = true.
Proof. vm_compute. reflexivity. Qed.

Lemma all_apart_spec (f : vec -> box) (l : mat) r1 r2 :
  all_apart (map (fun r => (r, f r)) l) = true ->
  In r1 l -> In r2 l -> r1 <> r2 -> apart (f r1) (f r2) = true.
Proof.
  unfold all_apart. intros K H1 H2 Hne.
  rewrite forallb_forall in K.
  specialize (K (r1, f r1) (in_map (fun r => (r, f r)) _ _ H1)).
  rewrite forallb_forall in K.
  specialize (K (r2, f r2) (in_map (fun r => (r, f r)) _ _ H2)).
  apply orb_prop in K as [K | K]; [ | exact K].
  exfalso. apply Hne. exact (proj1 (vec_eqb_eq r1 r2) K).
Qed.

Lemma apart_points r1 r2 :
  In r1 xyz -> In r2 xyz -> r1 <> r2 ->
  apart (box_of_point r1) (box_of_point r2) = true.
Proof. exact (all_apart_spec box_of_point xyz r1 r2 grid_boxes_apart). Qed.

Section Boxes.
Variables mp mm : pyval.
Variable mc : vec -> string -> exn + mat.
Variable g : nat -> F64.t.

Lemma boxes_other ev : is_call "set_data" ev = false -> boxes ev = [].
Proof.
  intros H. unfold boxes. rewrite (pos_rows_other ev H).
  destruct (has_geom "ParticleSet" ev).
  - now destruct (float_kw "r" ev).
  - destruct (has_geom "Parallelepipeds" ev); auto.
    destruct (vec_kw "u" ev), (vec_kw "v" ev), (vec_kw "w" ev); auto.
    now destruct (nonneg _ && nonneg _ && nonneg _).
Qed.

Lemma set_data_boxes obj :
  map (fun ev => (boxes ev, pos_rows ev))
      (filter (is_call "set_data") (script_events mp mm mc g obj))
  = [ (map (ball_box radius) (add_row (xyz_p_glass g) half_step),
       add_row (xyz_p_glass g) half_step);
      (map (ball_box radius) (add_row (xyz_p_plastic g) half_step),
       add_row (xyz_p_plastic g) half_step);
      (map (cube_box edge_u edge_v edge_w) (xyz_c_diffuse g), xyz_c_diffuse g);
      (map (cube_box edge_u edge_v edge_w) (xyz_c_mirror g), xyz_c_mirror g) ].
Proof. rewrite script_events_const. destruct (mc _ _); reflexivity. Qed.

Lemma set_data_box_lists obj :
  map boxes (filter (is_call "set_data") (script_events mp mm mc g obj))
  = [ map (ball_box radius) (add_row (xyz_p_glass g) half_step);
      map (ball_box radius) (add_row (xyz_p_plastic g) half_step);
      map (cube_box edge_u edge_v edge_w) (xyz_c_diffuse g);
      map (cube_box edge_u edge_v edge_w) (xyz_c_mirror g) ].
Proof. rewrite script_events_const. destruct (mc _ _); reflexivity. Qed.

Lemma ball_boxes l :
  (forall r, In r l -> interior_row r = true) ->
  map (ball_box radius) (add_row l half_step) = map box_of_point l.
Proof.
  intros H. unfold add_row. rewrite map_map. apply map_ext_in.
  intros r Hr. unfold box_of_point. rewrite (H r Hr). reflexivity.
Qed.

Lemma cube_boxes l :
  (forall r, In r l -> In r xyz /\ boundary_row r = true) ->
  map (cube_box edge_u edge_v edge_w) l = map box_of_point l.
Proof.
  intros H. apply map_ext_in. intros r Hr. destruct (H r Hr) as [Hin Hb].
  unfold box_of_point. rewrite (interior_or_boundary r Hin), Hb. reflexivity.
Qed.

Lemma script_boxes obj :
  flat_map boxes (script_events mp mm mc g obj) = map box_of_point (placed g).
Proof.
  rewrite (flat_map_filter (is_call "set_data") boxes _ boxes_other).
  rewrite flat_map_concat_map, set_data_box_lists.
  cbv beta iota delta [concat]. rewrite app_nil_r.
  rewrite (ball_boxes (xyz_p_glass g)), (ball_boxes (xyz_p_plastic g)),
    (cube_boxes (xyz_c_diffuse g)), (cube_boxes (xyz_c_mirror g)).
  - unfold placed. rewrite !map_app. reflexivity.
  - exact (mirror_on_grid g).
  - exact (diffuse_on_grid g).
  - intros r H. exact (proj2 (plastic_on_grid g r H)).
  - intros r H. exact (proj2 (glass_on_grid g r H)).
Qed.

Lemma script_boxes_count obj :
  Forall (fun ev => length (boxes ev) = length (pos_rows ev))
         (script_events mp mm mc g obj).
Proof.
  apply Forall_forall. intros ev Hev. destruct (is_call "set_data" ev) eqn:E.
  - assert (H : In (boxes ev, pos_rows ev)
                   (map (fun ev => (boxes ev, pos_rows ev))
                        (filter (is_call "set_data") (script_events mp mm mc g obj)))).
    { apply (in_map (fun ev => (boxes ev, pos_rows ev))), filter_In.
      split; [exact Hev | exact E]. }
    rewrite set_data_boxes in H.
    destruct H as [H | [H | [H | [H | []]]]];
      pose proof (f_equal fst H) as H1; pose proof (f_equal snd H) as H2;
      cbv beta iota delta [fst snd] in H1, H2;
      rewrite <- H1, <- H2; exact (length_map _ _).
  - rewrite (boxes_other ev E), (pos_rows_other ev E). reflexivity.
Qed.

End Boxes.
(** *** Counting *)

Lemma grid_counts :
  length (filter boundary_row xyz) = 91 /\ length (filter interior_row xyz) = 125.
Proof. vm_compute. split; reflexivity. Qed.

Lemma boundary_covered g r :
  (forall i, i < length xyz -> unit_sample (g i)) ->
  In r xyz -> boundary_row r = true ->
  In r (xyz_c_diffuse g ++ xyz_c_mirror g).
Proof.
  intros U Hin Hb. destruct (In_nth_error _ _ Hin) as [i Hi].
  apply in_or_app. destruct (ltb (g i) (lit 7 1)) eqn:E.
  - left. apply (proj2 (In_diffuse g r)). exists i.
    split; [exact Hi | split; [exact Hb | exact E]].
  - right. apply (proj2 (In_mirror g r)). exists i.
    split; [exact Hi | split; [exact Hb | ]].
    apply not_ltb_leb; [reflexivity | | exact E].
    destruct (U i) as [H _]; [apply nth_error_Some; congruence | ].
    exact (leb_not_nan _ _ H).
Qed.

(** *** Names *)

Lemma named_eqb_eq x y : named_eqb x y = true -> x = y.
Proof.
  destruct x as [k1 n1], y as [k2 n2]. unfold named_eqb. simpl. intros H.
  apply andb_prop in H as [H1 H2].
  apply String.eqb_eq in H1, H2. congruence.
Qed.

Lemma scoped_prefix env l1 l2 :
  prefix l1 l2 -> scoped env l2 = true -> scoped env l1 = true.
Proof.
  intros [r ->]. revert env. induction l1 as [ | ev l1 IH]; simpl; intros env H; auto.
  apply andb_prop in H as [H1 H2]. rewrite H1. simpl. exact (IH _ H2).
Qed.

Lemma scoped_sound evs :
  forall env, scoped env evs = true ->
  forall j ev x,
    nth_error evs j = Some ev -> In x (refers ev) ->
    In x env \/ exists i d, i < j /\ nth_error evs i = Some d /\ In x (defines d).
Proof.
  induction evs as [ | ev0 rest IH]; intros env H j ev x Hj Hx.
  - destruct j; discriminate Hj.
  - simpl in H. apply andb_prop in H as [H1 H2]. destruct j as [ | j].
    + simpl in Hj. injection Hj as <-. left.
      rewrite forallb_forall in H1. specialize (H1 x Hx).
      apply existsb_exists in H1 as (y & Hy & E).
      now rewrite (named_eqb_eq x y E).
    + simpl in Hj. destruct (IH _ H2 j ev x Hj Hx) as [K | (i & d & Hi & Hd & K)].
      * apply in_app_or in K as [K | K]; [ | now left].
        right. exists 0, ev0. repeat split; [lia | exact K].
      * right. exists (S i), d. repeat split; [lia | exact Hd | exact K].
Qed.

(** *** Dictionaries *)

Lemma dict_get_set_same k v d : dict_get k (dict_set k v d) = Some v.
Proof.
  induction d as [ | [k' v'] d IH]; simpl.
  - now rewrite String.eqb_refl.
  - destruct (String.eqb k k') eqn:E; simpl.
    + now rewrite String.eqb_refl.
    + now rewrite E.
Qed.

Lemma dict_get_set_other k k0 v d :
  String.eqb k0 k = false -> dict_get k0 (dict_set k v d) = dict_get k0 d.
Proof.
  intros Hne. induction d as [ | [k' v'] d IH]; simpl.
  - now rewrite Hne.
  - destruct (String.eqb k k') eqn:E; simpl.
    + apply String.eqb_eq in E. subst k'. now rewrite Hne.
    + now rewrite IH.
Qed.

(** *** Calls of one method *)

Section Calls.
Variables mp mm : pyval.
Variable mc : vec -> string -> exn + mat.
Variable g : nat -> F64.t.

Lemma calls_Forall {B} (f : event -> B) (Q : B -> Prop) m w :
  (forall obj,
     Forall Q (map f (filter (is_call m) (script_events mp mm mc g obj)))) ->
  Forall (fun ev => Q (f ev)) (calls_of m (trace mp mm mc g w)).
Proof.
  intros H. destruct (trace_prefix mp mm mc g w) as [obj Hp].
  apply Forall_map.
  exact (Forall_prefix _ _ _
           (prefix_map f _ _ (prefix_filter (is_call m) _ _ Hp)) (H obj)).
Qed.

Lemma update_data_colours obj :
  Forall (fun v => (forall x cm m, mc x cm = inr m -> length m = length x) ->
                   v = Some (length (xyz_p_glass g)))
         (map c_len (filter (is_call "update_data") (script_events mp mm mc g obj))).
Proof.
  rewrite script_events_const.
  destruct (mc (col 1 (xyz_p_glass g)) "jet") as [e | m] eqn:E.
  - change (Forall (fun v => (forall x cm m, mc x cm = inr m -> length m = length x) ->
                             v = Some (length (xyz_p_glass g)))
                   [Some (length (scale (lit 5 1) (col 1 (xyz_p_glass g))))]).
    constructor; [ | constructor]. intros _. unfold scale, col.
    now rewrite !length_map.
  - change (Forall (fun v => (forall x cm m, mc x cm = inr m -> length m = length x) ->
                             v = Some (length (xyz_p_glass g)))
                   [Some (length (scale (lit 5 1) (col 1 (xyz_p_glass g))));
                    Some (length (scale2 (of_Z 10) m))]).
    constructor; [ | constructor; [ | constructor]]; intros Hmc.
    + unfold scale, col. now rewrite !length_map.
    + f_equal. unfold scale2.
      transitivity (length m); [exact (length_map _ _) | ].
      transitivity (length (col 1 (xyz_p_glass g))); [exact (Hmc _ _ _ E) | ].
      exact (length_map _ _).
Qed.

Lemma update_data_names obj :
  Forall (fun v => v = Some "particles_g")
         (map name_arg (filter (is_call "update_data") (script_events mp mm mc g obj))).
Proof.
  rewrite script_events_const. destruct (mc _ _); repeat constructor.
Qed.

Lemma set_data_named obj :
  map (fun ev => (name_arg ev, pos_rows ev))
      (filter (is_call "set_data") (script_events mp mm mc g obj))
  = [ (Some "particles_g", add_row (xyz_p_glass g) half_step);
      (Some "particles_p", add_row (xyz_p_plastic g) half_step);
      (Some "cubes_d", xyz_c_diffuse g);
      (Some "cubes_m", xyz_c_mirror g) ].
Proof. rewrite script_events_const. destruct (mc _ _); reflexivity. Qed.

Lemma update_material_refraction obj :
  map refraction_arg
      (filter (is_call "update_material") (script_events mp mm mc g obj))
  = [ Some (PyList [PyFloat (lit 14 1); PyFloat (lit 144 2); PyFloat (lit 15 1)]) ].
Proof. rewrite script_events_const. destruct (mc _ _); reflexivity. Qed.

Lemma start_flags obj :
  prefix (repeat false 19 ++ [true])
         (map (is_call "start") (script_events mp mm mc g obj))
  /\ prefix (map (is_call "start") (script_events mp mm mc g obj))
            (repeat false 19 ++ true :: repeat false 8).
Proof.
  rewrite script_events_const. destruct (mc _ _); split.
  - now exists (repeat false 3).
  - now exists (repeat false 5).
  - now exists (repeat false 8).
  - now exists [].
Qed.

Lemma start_position obj i ev :
  nth_error (script_events mp mm mc g obj) i = Some ev ->
  is_call "start" ev = true -> i = 19.
Proof.
  intros Hi Hs.
  assert (H : nth_error (map (is_call "start") (script_events mp mm mc g obj)) i
              = Some true).
  { rewrite nth_error_map, Hi. simpl. now rewrite Hs. }
  destruct (proj2 (start_flags obj)) as [r E].
  assert (H' : nth_error (repeat false 19 ++ true :: repeat false 8) i = Some true).
  { rewrite E, nth_error_app1; [exact H | apply nth_error_Some; congruence]. }
  clear - H'.
  do 19 (destruct i as [ | i]; [discriminate H' | ]).
  destruct i as [ | i]; [reflexivity | ].
  do 8 (destruct i as [ | i]; [discriminate H' | ]).
  destruct i; discriminate H'.
Qed.

Lemma script_scoped obj : scoped [] (script_events mp mm mc g obj) = true.
Proof. rewrite script_events_const. destruct (mc _ _); reflexivity. Qed.

End Calls.
End SceneFacts.

(** ** Further properties of the notebook *)

Module Extras.
Import F64 Np Data Run Notebook Obs Scene.
Import F64Facts NpFacts DataFacts RunFacts OrderFacts GridFacts SceneFacts.

(** X1: in every run, the primitives passed to the renderer, cubes of edge
    [0.9*s] at the boundary points and particles of radius [0.4*s] at the
    shifted interior points, have pairwise separated bounding boxes: no two
    of them overlap; and every position passed has its box. *)
Theorem primitives_do_not_overlap mp mm mc g w :
  ForallOrdPairs (fun b1 b2 => apart b1 b2 = true)
                 (flat_map boxes (events (trace mp mm mc g w)))
  /\ length (flat_map boxes (events (trace mp mm mc g w)))
     = length (flat_map pos_rows (events (trace mp mm mc g w))).
Proof.
  destruct (trace_prefix mp mm mc g w) as [obj Hp]. split.
  - eapply ForallOrdPairs_prefix; [exact (flat_map_prefix boxes _ _ Hp) | ].
    rewrite script_boxes. apply ForallOrdPairs_map; [exact (placed_NoDup g) | ].
    intros x y Hx Hy Hne.
    exact (apart_points x y (placed_on_grid g x Hx) (placed_on_grid g y Hy) Hne).
  - apply flat_map_length.
    exact (Forall_prefix _ _ _ Hp (script_boxes_count mp mm mc g obj)).
Qed.

(** X2: in every run, every primitive passed to the renderer lies within
    the cube from 0 to [a] along each axis. *)
Theorem primitives_within_scene mp mm mc g w :
  Forall (fun b => in_scene b = true)
         (flat_map boxes (events (trace mp mm mc g w))).
Proof.
  destruct (trace_prefix mp mm mc g w) as [obj Hp].
  eapply Forall_prefix; [exact (flat_map_prefix boxes _ _ Hp) | ].
  rewrite script_boxes. apply Forall_forall. intros b Hb.
  destruct (proj1 (in_map_iff box_of_point (placed g) b) Hb) as (r & E & Hr).
  rewrite <- E.
  exact (proj1 (forallb_forall _ xyz) grid_boxes_in_scene r (placed_on_grid g r Hr)).
Qed.

(** X3: whatever the samples, at most 125 particles are passed; with
    samples in [0, 1), exactly 91 cubes are passed, one for each grid point
    with a coordinate equal to 0. *)
Theorem point_counts g :
  length (xyz_p_glass g) + length (xyz_p_plastic g) <= 125
  /\ ((forall i, i < length xyz -> unit_sample (g i)) ->
      length (xyz_c_diffuse g) + length (xyz_c_mirror g) = 91).
Proof.
  destruct grid_counts as [Cb Ci]. split.
  - rewrite <- length_app, <- Ci. apply NoDup_incl_length.
    + exact (particles_NoDup g).
    + intros r Hr.
      exact (proj2 (filter_In interior_row r xyz) (particles_interior g r Hr)).
  - intros U. rewrite <- length_app, <- Cb. apply Nat.le_antisymm.
    + apply NoDup_incl_length.
      * exact (cubes_NoDup g).
      * intros r Hr.
        exact (proj2 (filter_In boundary_row r xyz) (cubes_boundary g r Hr)).
    + apply NoDup_incl_length.
      * exact (NoDup_filter boundary_row xyz_NoDup).
      * intros r Hr.
        destruct (proj1 (filter_In boundary_row r xyz) Hr) as [H1 H2].
        exact (boundary_covered g r U H1 H2).
Qed.

(** X3 at the samples [cycle_samples]. *)
Lemma point_counts_witness :
  length (xyz_c_diffuse cycle_samples) + length (xyz_c_mirror cycle_samples) = 91.
Proof.
  exact (proj2 (point_counts cycle_samples)
               (fun i _ => DataClaims.cycle_samples_unit i)).
Defined.

(** X4: in every run, every material, geometry or light that an update
    call changes, and every material other than "diffuse" that a [set_data]
    call uses, was set up under that name by an earlier call of the run. *)
Theorem references_defined mp mm mc g w :
  defined_before (events (trace mp mm mc g w)).
Proof.
  destruct (trace_prefix mp mm mc g w) as [obj Hp].
  pose proof (scoped_prefix [] _ _ Hp (script_scoped mp mm mc g obj)) as H.
  intros j ev x Hj Hx.
  destruct (scoped_sound _ [] H j ev x Hj Hx) as [[] | K]. exact K.
Qed.

(** X4 at the [update_material] call (event 21) of a run where nothing
    raises. *)
Lemma references_defined_witness :
  exists i d,
    i < 21
    /\ nth_error (events (trace PyNone PyNone grey_colors cycle_samples
                                (quiet (PyObject 0)))) i = Some d
    /\ In ("material", "glass") (defines d).
Proof.
  refine (references_defined PyNone PyNone grey_colors cycle_samples
            (quiet (PyObject 0)) 21 _ ("material", "glass") _ _).
  - reflexivity.
  - left. reflexivity.
Defined.

(** X5: the assignment [o[k1][k2] = v] of cell 12 succeeds exactly when
    [o[k1]] is a dictionary; then [o[k1][k2]] reads back [v], and every
    other entry of [o] and of [o[k1]] is unchanged.  In every run the
    material passed to [update_material] has the refraction index
    [1.4, 1.44, 1.5]. *)
Theorem refraction_index_assignment mp mm mc g w :
  (forall o k1 k2 v,
     match setitem2 o k1 k2 v with
     | inr o' =>
         (exists d1, getitem o k1 = Some (PyDict d1))
         /\ getitem2 o' k1 k2 = Some v
         /\ (forall k, String.eqb k k1 = false -> getitem o' k = getitem o k)
         /\ (forall k, String.eqb k k2 = false -> getitem2 o' k1 k = getitem2 o k1 k)
     | inl _ => forall d1, getitem o k1 <> Some (PyDict d1)
     end)
  /\ Forall (fun ev =>
               refraction_arg ev
               = Some (PyList [PyFloat (lit 14 1); PyFloat (lit 144 2);
                               PyFloat (lit 15 1)]))
            (calls_of "update_material" (trace mp mm mc g w)).
Proof.
  split.
  - intros o k1 k2 v. unfold setitem2, getitem2, getitem.
    destruct o as [ | | | | | | d | | | ]; try (intros d1 H; discriminate H).
    destruct (dict_get k1 d) as [o1 | ] eqn:E; [ | intros d1 H; discriminate H].
    destruct o1 as [ | | | | | | d1 | | | ]; try (intros d1' H; discriminate H).
    split; [now exists d1 | ]. split; [ | split].
    + rewrite dict_get_set_same. apply dict_get_set_same.
    + intros k Hk. now apply dict_get_set_other.
    + intros k Hk. rewrite dict_get_set_same. now apply dict_get_set_other.
  - apply (calls_Forall mp mm mc g refraction_arg
             (fun v => v = Some (PyList [PyFloat (lit 14 1); PyFloat (lit 144 2);
                                         PyFloat (lit 15 1)]))).
    intros obj. rewrite update_material_refraction. repeat constructor.
Qed.

(** X6: when [map_to_colors] returns one row per value, the colour array of
    every [update_data] call is for "particles_g" and has one entry per
    glass particle, as many as the positions that [set_data] passed under
    that name. *)
Theorem colours_match_particles mp mm mc g w :
  (forall v cm m, mc v cm = inr m -> length m = length v) ->
  Forall (fun ev => name_arg ev = Some "particles_g")
         (calls_of "update_data" (trace mp mm mc g w))
  /\ Forall (fun ev => c_len ev = Some (length (xyz_p_glass g)))
            (calls_of "update_data" (trace mp mm mc g w))
  /\ Forall (fun ev => name_arg ev = Some "particles_g" ->
                       length (pos_rows ev) = length (xyz_p_glass g))
            (calls_of "set_data" (trace mp mm mc g w)).
Proof.
  intros Hmc. split; [ | split].
  - apply (calls_Forall mp mm mc g name_arg (fun v => v = Some "particles_g")).
    exact (update_data_names mp mm mc g).
  - apply (calls_Forall mp mm mc g c_len
             (fun v => v = Some (length (xyz_p_glass g)))).
    intros obj.
    exact (Forall_impl _ (fun v H => H Hmc) (update_data_colours mp mm mc g obj)).
  - apply (calls_Forall mp mm mc g (fun ev => (name_arg ev, pos_rows ev))
             (fun p => fst p = Some "particles_g" ->
                       length (snd p) = length (xyz_p_glass g))).
    intros obj. rewrite set_data_named.
    constructor; [intros _; exact (length_map _ _) | ].
    repeat (constructor; [intros H; discriminate H | ]). constructor.
Qed.

(** X6 with the stand-in [grey_colors], at a run where nothing raises. *)
Lemma colours_match_particles_witness :
  Forall (fun ev => c_len ev = Some (length (xyz_p_glass cycle_samples)))
         (calls_of "update_data"
            (trace PyNone PyNone grey_colors cycle_samples (quiet (PyObject 0)))).
Proof.
  refine (proj1 (proj2 (colours_match_particles PyNone PyNone grey_colors
                          cycle_samples (quiet (PyObject 0)) _))).
  intros v cm m H. injection H as <-. exact (length_map _ _).
Defined.

(** X7: [start] is only ever issued as event 19 of a run, after the
    construction and the eighteen configuration calls have all been issued
    in their order and have all returned. *)
Theorem start_after_configuration mp mm mc g w i ev o :
  nth_error (trace mp mm mc g w) i = Some (ev, o) ->
  is_call "start" ev = true ->
  i = 19
  /\ Forall returned (firstn 19 (trace mp mm mc g w))
  /\ exists obj,
       events (firstn 19 (trace mp mm mc g w))
       = firstn 19 (script_events mp mm mc g obj).
Proof.
  intros Hi Hs.
  destruct (script_runs mp mm mc g w) as (obj & H & _).
  destruct (runs_as_prefix _ _ _ _ H) as [rest Hp].
  assert (He : nth_error (events (trace mp mm mc g w)) i = Some ev).
  { unfold events. rewrite nth_error_map. exact (f_equal (option_map fst) Hi). }
  assert (Hlt : i < length (trace mp mm mc g w)).
  { apply nth_error_Some. congruence. }
  assert (Hn : i = 19).
  { apply (start_position mp mm mc g obj i ev); [ | exact Hs].
    rewrite Hp, nth_error_app1; [exact He | ].
    unfold events. now rewrite length_map. }
  subst i.
  assert (Hle : 19 < length (events (trace mp mm mc g w))).
  { unfold events. rewrite length_map. exact Hlt. }
  split; [reflexivity | split].
  - exact (runs_as_returned _ _ _ _ H 19 Hlt).
  - exists obj. rewrite Hp. unfold events at 1. rewrite <- firstn_map.
    fold (events (trace mp mm mc g w)).
    rewrite firstn_app.
    replace (19 - length (events (trace mp mm mc g w))) with 0 by lia.
    simpl firstn at 3. now rewrite app_nil_r.
Qed.

(** X7 at a run where nothing raises. *)
Lemma start_after_configuration_witness :
  Forall returned
         (firstn 19 (trace PyNone PyNone grey_colors cycle_samples (quiet (PyObject 0)))).
Proof.
  refine (proj1 (proj2 (start_after_configuration PyNone PyNone grey_colors
                          cycle_samples (quiet (PyObject 0)) 19 _ _ _ _))).
  - reflexivity.
  - reflexivity.
Defined.

(** The run with the samples [cycle_samples] in which nothing raises passes
    148 primitives: 50 and 7 particles, 63 and 28 cubes. *)
Example primitives_present :
  map (fun ev => length (boxes ev))
      (calls_of "set_data"
         (trace PyNone PyNone grey_colors cycle_samples (quiet (PyObject 0))))
  = [50; 7; 63; 28].
Proof. vm_compute. reflexivity. Qed.

End Extras.
